(** * Personal Context Manager: a shallow embedding of
      [src/lab/personal/context_manager.py] and the properties of its
      store operations.

    Conventions of the embedding.
    - A Python [dict] is an insertion-ordered association list with
      distinct keys ([dict_wf]); [d[k] = v] keeps the position of an
      existing key and appends a new one, as CPython does.
    - Python [str] is [string], one character for each Python character
      with a code point below 256; [lower] is [str.lower] on them.
    - [datetime] values are UTC-aware calendar records; the wall clock
      [datetime.now(timezone.utc)] is an explicit argument of every
      operation that reads it.
    - The text that a tool returns is represented by a structured
      [Reply]: one constructor per message of the source, carrying the
      values the message interpolates.
    - The only object that the functions can mutate while it is shared
      is the default [metadata={}] dictionary of [add_context]; it is a
      cell of the process state ([default_metadata]) and a record refers
      to it with [SharedDefault]. The default lists of [tags] and
      [connections] are never mutated in place (the source only rebinds
      the attribute), so they are embedded as values. The program calls
      the functions through [@mcp.tool] ([tool_add_context],
      [tool_run]), which hands them a copy of a default and never the
      default object itself.
    - Writing and reading the backing file cannot fail in the embedding;
      how the constructor ends is the matter of [construct]. *)

From Stdlib Require Import List String Ascii Bool ZArith Lia Arith.
From Stdlib Require Import Sorting.Sorted Sorting.Permutation.
Import ListNotations.
Local Open Scope string_scope.
Local Open Scope list_scope.
Local Open Scope Z_scope.

(* ------------------------------------------------------------------ *)
(** ** Insertion-ordered dictionaries *)

Module Dict.

Definition dict (V : Type) : Type := list (string * V).

Section Ops.
Context {V : Type}.

(** [d.get(k)] *)
Fixpoint dict_get (k : string) (d : dict V) : option V :=
  match d with
  | [] => None
  | (k', v) :: d' => if String.eqb k k' then Some v else dict_get k d'
  end.

(** [d[k] = v] *)
Fixpoint dict_set (k : string) (v : V) (d : dict V) : dict V :=
  match d with
  | [] => [(k, v)]
  | (k', v') :: d' =>
      if String.eqb k k' then (k', v) :: d' else (k', v') :: dict_set k v d'
  end.

(** [d.update(m)] *)
Definition dict_update (d m : dict V) : dict V :=
  fold_left (fun acc kv => dict_set (fst kv) (snd kv) acc) m d.

(** [{k: v for k, v in items}] *)
Definition dict_of_items (items : list (string * V)) : dict V :=
  dict_update [] items.

Definition dict_keys (d : dict V) : list string := map fst d.
Definition dict_values (d : dict V) : list V := map snd d.
Definition dict_len (d : dict V) : nat := List.length d.

(** Python dictionaries have pairwise distinct keys. *)
Definition dict_wf (d : dict V) : Prop := NoDup (dict_keys d).

End Ops.

End Dict.
Import Dict.

(** Sequencing of computations that may raise: [None] is the raised
    exception. *)
Notation "'let*' p ':=' e 'in' k" :=
  (match e with Some p => k | None => None end)
  (at level 10, p pattern, e at level 200, k at level 200, only parsing).

(* ------------------------------------------------------------------ *)
(** ** Timestamps: [datetime] in UTC *)

Module Datetime.

(** A timezone-aware [datetime] whose [tzinfo] is [timezone.utc]; the
    source creates no other kind. *)
Record datetime : Type := mkdatetime {
  year : Z; month : Z; day : Z;
  hour : Z; minute : Z; second : Z; microsecond : Z
}.

Definition is_leap (y : Z) : bool :=
  (y mod 4 =? 0) && (negb (y mod 100 =? 0) || (y mod 400 =? 0)).

Definition days_in_month (y m : Z) : Z :=
  match m with
  | 1 | 3 | 5 | 7 | 8 | 10 | 12 => 31
  | 4 | 6 | 9 | 11 => 30
  | 2 => if is_leap y then 29 else 28
  | _ => 0
  end.

Definition in_range (lo hi x : Z) : bool := (lo <=? x) && (x <=? hi).

(** The field ranges that the [datetime] constructor enforces. *)
Definition datetime_valid (t : datetime) : bool :=
  in_range 1 9999 (year t) && in_range 1 12 (month t) &&
  in_range 1 (days_in_month (year t) (month t)) (day t) &&
  in_range 0 23 (hour t) && in_range 0 59 (minute t) &&
  in_range 0 59 (second t) && in_range 0 999999 (microsecond t).

(** Ordering of two UTC datetimes: lexicographic on the fields. *)
Fixpoint lex_compare (a b : list Z) : comparison :=
  match a, b with
  | [], [] => Eq
  | [], _ :: _ => Lt
  | _ :: _, [] => Gt
  | x :: a', y :: b' =>
      match x ?= y with
      | Eq => lex_compare a' b'
      | c => c
      end
  end.

Definition fields (t : datetime) : list Z :=
  [year t; month t; day t; hour t; minute t; second t; microsecond t].

Definition datetime_compare (a b : datetime) : comparison :=
  lex_compare (fields a) (fields b).

Definition datetime_ltb (a b : datetime) : bool :=
  match datetime_compare a b with Lt => true | _ => false end.

Definition datetime_leb (a b : datetime) : bool :=
  match datetime_compare a b with Gt => false | _ => true end.

Definition datetime_le (a b : datetime) : Prop := datetime_leb a b = true.

(** Two instants fall within the same wall-clock second. *)
Definition same_second (a b : datetime) : Prop :=
  year a = year b /\ month a = month b /\ day a = day b /\
  hour a = hour b /\ minute a = minute b /\ second a = second b.

(** *** Formatting *)

Definition digit (d : Z) : ascii := ascii_of_N (Z.to_N (48 + d)).

(** [n] in decimal on [width] digits, zero padded (the [%02d], [%04d]
    and [%06d] of the C formats, for a number that fits). *)
Fixpoint zpad (width : nat) (n : Z) : list ascii :=
  match width with
  | O => []
  | S w => zpad w (n / 10) ++ [digit (n mod 10)]
  end.

Definition chars (s : string) : list ascii := list_ascii_of_string s.

(** [t.strftime('%Y%m%d_%H%M%S')] *)
Definition strftime_compact (t : datetime) : string :=
  string_of_list_ascii
    (zpad 4 (year t) ++ zpad 2 (month t) ++ zpad 2 (day t) ++ chars "_" ++
     zpad 2 (hour t) ++ zpad 2 (minute t) ++ zpad 2 (second t)).

(** [t.strftime('%Y-%m-%d %H:%M')] *)
Definition strftime_minute (t : datetime) : string :=
  string_of_list_ascii
    (zpad 4 (year t) ++ chars "-" ++ zpad 2 (month t) ++ chars "-" ++
     zpad 2 (day t) ++ chars " " ++ zpad 2 (hour t) ++ chars ":" ++
     zpad 2 (minute t)).

(** [t.strftime('%Y-%m-%d %H:%M:%S UTC')] *)
Definition strftime_utc (t : datetime) : string :=
  string_of_list_ascii
    (zpad 4 (year t) ++ chars "-" ++ zpad 2 (month t) ++ chars "-" ++
     zpad 2 (day t) ++ chars " " ++ zpad 2 (hour t) ++ chars ":" ++
     zpad 2 (minute t) ++ chars ":" ++ zpad 2 (second t) ++ chars " UTC").

(** [t.isoformat()]: [YYYY-MM-DDTHH:MM:SS+00:00], with [.ffffff] after
    the seconds when the microsecond field is not zero. *)
Definition isoformat (t : datetime) : string :=
  string_of_list_ascii
    (zpad 4 (year t) ++ chars "-" ++ zpad 2 (month t) ++ chars "-" ++
     zpad 2 (day t) ++ chars "T" ++ zpad 2 (hour t) ++ chars ":" ++
     zpad 2 (minute t) ++ chars ":" ++ zpad 2 (second t) ++
     (if microsecond t =? 0 then [] else chars "." ++ zpad 6 (microsecond t)) ++
     chars "+00:00").

(** *** Parsing *)

Definition digit_val (c : ascii) : option Z :=
  let n := Z.of_N (N_of_ascii c) in
  if in_range 48 57 n then Some (n - 48) else None.

Fixpoint read_digits (width : nat) (acc : Z) (l : list ascii)
  : option (Z * list ascii) :=
  match width with
  | O => Some (acc, l)
  | S w =>
      match l with
      | [] => None
      | c :: l' =>
          match digit_val c with
          | Some d => read_digits w (10 * acc + d) l'
          | None => None
          end
      end
  end.

Fixpoint expect (lit : list ascii) (l : list ascii) : option (list ascii) :=
  match lit with
  | [] => Some l
  | c :: lit' =>
      match l with
      | c' :: l' => if Ascii.eqb c c' then expect lit' l' else None
      | [] => None
      end
  end.

(** The optional fraction: a dot and six digits. *)
Definition read_fraction (l : list ascii) : option (Z * list ascii) :=
  match l with
  | "."%char :: l' => read_digits 6 0 l'
  | _ => Some (0, l)
  end.

(** [datetime.fromisoformat(s)] on the texts that [isoformat] writes for
    a UTC datetime, the only ones the program writes. [None] is a
    [ValueError], or a text outside this form: Python reads more
    spellings (no offset or another one, another separator, a shorter
    fraction), some into values that are no UTC datetimes. *)
Definition fromisoformat (s : string) : option datetime :=
  let* (y, l) := read_digits 4 0 (chars s) in
  let* l := expect (chars "-") l in
  let* (mo, l) := read_digits 2 0 l in
  let* l := expect (chars "-") l in
  let* (d, l) := read_digits 2 0 l in
  let* l := expect (chars "T") l in
  let* (h, l) := read_digits 2 0 l in
  let* l := expect (chars ":") l in
  let* (mi, l) := read_digits 2 0 l in
  let* l := expect (chars ":") l in
  let* (sec, l) := read_digits 2 0 l in
  let* (us, l) := read_fraction l in
  let* l := expect (chars "+00:00") l in
  match l with
  | [] =>
      let t := mkdatetime y mo d h mi sec us in
      if datetime_valid t then Some t else None
  | _ :: _ => None
  end.

End Datetime.
Import Datetime.

(* ------------------------------------------------------------------ *)
(** ** Strings: [str.lower] and [in] *)

(** A character of a [string] stands for the Python character with the
    same code point, so the strings of the embedding are the Python
    strings over the code points 0 to 255 and [String.length] is [len].
    Text with other characters lies outside the embedding. *)

Module Str.

(** The lower-case mapping of one character: the letters A to Z, and
    the capital letters with code points 192 to 222 (all of that range
    but the multiplication sign, 215), map to the character 32 further
    on; every other character, the sharp s (223) among them, maps to
    itself. *)
Definition lower_char (c : ascii) : ascii :=
  let n := N_of_ascii c in
  if ((65 <=? n) && (n <=? 90) ||
      (192 <=? n) && (n <=? 222) && negb (n =? 215))%N
  then ascii_of_N (n + 32) else c.

(** [s.lower()]. On the characters of the embedding [str.lower] works
    character by character. *)
Fixpoint lower (s : string) : string :=
  match s with
  | EmptyString => EmptyString
  | String c s' => String (lower_char c) (lower s')
  end.

(** [needle in hay] *)
Fixpoint contains (needle hay : string) : bool :=
  String.prefix needle hay ||
  match hay with
  | EmptyString => false
  | String _ hay' => contains needle hay'
  end.

End Str.
Import Str.

(* ------------------------------------------------------------------ *)
(** ** The data model *)

(** [class ContextType(str, Enum)] *)
Inductive ContextType : Type :=
  CONVERSATION | DECISION | PROJECT | TASK | INSIGHT | RELATIONSHIP.

(** [class Priority(str, Enum)] *)
Inductive Priority : Type := CRITICAL | HIGH | MEDIUM | LOW.

(** [member.value] *)
Definition ContextType_value (t : ContextType) : string :=
  match t with
  | CONVERSATION => "conversation"
  | DECISION => "decision"
  | PROJECT => "project"
  | TASK => "task"
  | INSIGHT => "insight"
  | RELATIONSHIP => "relationship"
  end.

Definition Priority_value (p : Priority) : string :=
  match p with
  | CRITICAL => "critical"
  | HIGH => "high"
  | MEDIUM => "medium"
  | LOW => "low"
  end.

Definition all_types : list ContextType :=
  [CONVERSATION; DECISION; PROJECT; TASK; INSIGHT; RELATIONSHIP].

Definition all_priorities : list Priority := [CRITICAL; HIGH; MEDIUM; LOW].

(** [ContextType(s)]: the member whose value is [s]; [None] is the
    [ValueError] of an unknown value. *)
Definition ContextType_of_value (s : string) : option ContextType :=
  find (fun t => String.eqb (ContextType_value t) s) all_types.

Definition Priority_of_value (s : string) : option Priority :=
  find (fun p => String.eqb (Priority_value p) s) all_priorities.

Definition ContextType_eqb (a b : ContextType) : bool :=
  String.eqb (ContextType_value a) (ContextType_value b).

(** JSON-compatible values: what [json.load] returns and [json.dump]
    accepts (numbers restricted to integers). An object is a Python
    [dict]. *)
#[local] Set Warnings "-register-all".
Inductive json : Type :=
| JNull
| JBool (b : bool)
| JNum (n : Z)
| JStr (s : string)
| JArr (items : list json)
| JObj (members : list (string * json)).
#[local] Set Warnings "register-all".

(** The [metadata] attribute refers either to the one default dictionary
    of [add_context] (created once, when the function is defined, and
    shared by every call that omits the argument) or to a dictionary of
    the record's own. *)
Inductive MetaRef : Type :=
| SharedDefault
| Own (d : dict json).

(** [@dataclass class ContextItem] *)
Record ContextItem : Type := mkContextItem {
  id : string;
  type : ContextType;
  title : string;
  content : string;
  priority : Priority;
  created_at : datetime;
  updated_at : datetime;
  tags : list string;
  connections : list string;
  metadata : MetaRef
}.

(** The backing file [context_store.json]: absent, present with a text
    that [json.load] rejects, or present with a JSON value. *)
Inductive File : Type :=
| NoFile
| Unparseable
| JsonFile (j : json).

(** The process state: the mapping of [context_manager], the default
    [metadata] object of [add_context], and the file on disk. *)
Record State : Type := mkState {
  contexts : dict ContextItem;
  default_metadata : dict json;
  context_file : File
}.

(** The dictionary that [c.metadata] denotes in a given process state. *)
Definition metadata_of (dflt : dict json) (c : ContextItem) : dict json :=
  match metadata c with
  | SharedDefault => dflt
  | Own d => d
  end.

(** The record with its metadata read out: the value of the record, as
    [==] on dataclass instances compares it. *)
Definition snapshot (dflt : dict json) (c : ContextItem) : ContextItem :=
  mkContextItem (id c) (type c) (title c) (content c) (priority c)
    (created_at c) (updated_at c) (tags c) (connections c)
    (Own (metadata_of dflt c)).

Definition store_snapshot (s : State) : dict ContextItem :=
  map (fun kc => (fst kc, snapshot (default_metadata s) (snd kc))) (contexts s).

(* ------------------------------------------------------------------ *)
(** ** Serialization *)

(** [ContextItem.to_dict]: [asdict] copies the fields in declaration
    order (reading the metadata dictionary out), then the two timestamps
    are replaced by their ISO text. *)
Definition to_dict (dflt : dict json) (c : ContextItem) : json :=
  JObj [("id", JStr (id c));
        ("type", JStr (ContextType_value (type c)));
        ("title", JStr (title c));
        ("content", JStr (content c));
        ("priority", JStr (Priority_value (priority c)));
        ("created_at", JStr (isoformat (created_at c)));
        ("updated_at", JStr (isoformat (updated_at c)));
        ("tags", JArr (map JStr (tags c)));
        ("connections", JArr (map JStr (connections c)));
        ("metadata", JObj (metadata_of dflt c))].

Definition as_str (j : json) : option string :=
  match j with JStr s => Some s | _ => None end.

Fixpoint as_str_list_aux (l : list json) : option (list string) :=
  match l with
  | [] => Some []
  | j :: l' =>
      let* s := as_str j in
      let* r := as_str_list_aux l' in
      Some (s :: r)
  end.

Definition as_str_list (j : json) : option (list string) :=
  match j with JArr l => as_str_list_aux l | _ => None end.

Definition as_obj (j : json) : option (dict json) :=
  match j with JObj o => Some o | _ => None end.

(** [data[k]] on what should be a dictionary. *)
Definition subscript (data : json) (k : string) : option json :=
  let* o := as_obj data in dict_get k o.

Definition field_names : list string :=
  ["id"; "type"; "title"; "content"; "priority"; "created_at";
   "updated_at"; "tags"; "connections"; "metadata"].

(** [ContextItem.from_dict] as far as it yields a record of the
    embedding. The four conversions come first, as in the source;
    [cls( **data)] then wants exactly the ten field names as keys.
    [None] is a raised exception, or a payload that Python makes into an
    object that is no record of the embedding: the dataclass checks no
    types, so a field of another JSON shape than annotated is stored as
    it is, and a timestamp may be written in another way than
    [isoformat] does. [malformed] below tells the payloads that surely
    raise. *)
Definition from_dict (data : json) : option ContextItem :=
  let* jc := subscript data "created_at" in
  let* sc := as_str jc in
  let* c := fromisoformat sc in
  let* ju := subscript data "updated_at" in
  let* su := as_str ju in
  let* u := fromisoformat su in
  let* jt := subscript data "type" in
  let* st := as_str jt in
  let* t := ContextType_of_value st in
  let* jp := subscript data "priority" in
  let* sp := as_str jp in
  let* p := Priority_of_value sp in
  let* o := as_obj data in
  if negb (Nat.eqb (dict_len o) (List.length field_names)) then None else
  let* ji := dict_get "id" o in
  let* i := as_str ji in
  let* jti := dict_get "title" o in
  let* ti := as_str jti in
  let* jco := dict_get "content" o in
  let* co := as_str jco in
  let* jta := dict_get "tags" o in
  let* ta := as_str_list jta in
  let* jcn := dict_get "connections" o in
  let* cn := as_str_list jcn in
  let* jm := dict_get "metadata" o in
  let* m := as_obj jm in
  Some (mkContextItem i t ti co p c u ta cn (Own m)).

(* ------------------------------------------------------------------ *)
(** ** [class ContextManager] *)

(** [save_contexts] *)
Definition save_contexts (s : State) : State :=
  mkState (contexts s) (default_metadata s)
    (JsonFile
       (JObj (map (fun kc => (fst kc, to_dict (default_metadata s) (snd kc)))
                  (contexts s)))).

(** The comprehension of [load_contexts]: it raises as soon as one value
    fails to deserialize. *)
Definition load_items (data : dict json) : option (dict ContextItem) :=
  fold_left
    (fun acc kv =>
       let* d := acc in
       let* c := from_dict (snd kv) in
       Some (dict_set (fst kv) c d))
    data (Some []).

(** The mapping after [load_contexts], when it returns: a missing file
    leaves the mapping as it is and the handler of an exception empties
    it. [data.items()] raises unless the top-level value is an object.
    When the call returns, and on which files this definition follows
    the program, is the matter of [construct] below. *)
Definition load_contexts (s : State) : State :=
  match context_file s with
  | NoFile => s
  | Unparseable => mkState [] (default_metadata s) (context_file s)
  | JsonFile j =>
      match (let* o := as_obj j in load_items o) with
      | Some d => mkState d (default_metadata s) (context_file s)
      | None => mkState [] (default_metadata s) (context_file s)
      end
  end.

(** [ContextManager()] in a process whose default metadata object holds
    [dflt], over the file [f]. *)
Definition ContextManager_init (dflt : dict json) (f : File) : State :=
  load_contexts (mkState [] dflt f).

(** The state right after the module is imported: the default metadata
    object is the empty dictionary of the [def]. *)
Definition startup (f : File) : State := ContextManager_init [] f.

(** [ContextManager.add_context] *)
Definition manager_add_context (c : ContextItem) (s : State) : State :=
  save_contexts
    (mkState (dict_set (id c) c (contexts s)) (default_metadata s)
       (context_file s)).

(** [ContextManager.get_context] *)
Definition get_context (context_id : string) (s : State)
  : option ContextItem :=
  dict_get context_id (contexts s).

(** [sorted(l, key=lambda x: x.updated_at, reverse=True)]: a stable sort,
    latest first, equal keys in their original order. *)
Fixpoint insert_desc (x : ContextItem) (l : list ContextItem)
  : list ContextItem :=
  match l with
  | [] => [x]
  | y :: l' =>
      if datetime_ltb (updated_at x) (updated_at y)
      then y :: insert_desc x l'
      else x :: l
  end.

Definition sorted_by_updated_desc (l : list ContextItem) : list ContextItem :=
  fold_right insert_desc [] l.

(** [context_type and context.type != context_type]: every member of
    the enumeration is a non-empty string, hence true as a condition. *)
Definition type_excluded (context_type : option ContextType)
  (c : ContextItem) : bool :=
  match context_type with
  | Some t => negb (ContextType_eqb (type c) t)
  | None => false
  end.

(** The test of the loop body of [search_contexts]. *)
Definition matches_query (query_lower : string) (c : ContextItem) : bool :=
  contains query_lower (lower (title c)) ||
  contains query_lower (lower (content c)) ||
  existsb (fun tag => contains query_lower (lower tag)) (tags c).

(** [ContextManager.search_contexts] *)
Definition search_contexts (query : string) (context_type : option ContextType)
  (s : State) : list ContextItem :=
  let query_lower := lower query in
  let results :=
    filter (fun c => negb (type_excluded context_type c) &&
                     matches_query query_lower c)
           (dict_values (contexts s)) in
  sorted_by_updated_desc results.

(** [l[:limit]] *)
Definition slice_to {A : Type} (limit : Z) (l : list A) : list A :=
  if 0 <=? limit then firstn (Z.to_nat limit) l
  else firstn (List.length l - Z.to_nat (- limit)) l.

(** [ContextManager.get_recent_contexts] *)
Definition get_recent_contexts (limit : Z) (context_type : option ContextType)
  (s : State) : list ContextItem :=
  let contexts := filter (fun c => negb (type_excluded context_type c))
                         (dict_values (contexts s)) in
  slice_to limit (sorted_by_updated_desc contexts).

(* ------------------------------------------------------------------ *)
(** ** [ContextManager()] to its end *)

(** [load_contexts] above gives the mapping that the constructor leaves
    when it returns. Whether it returns is decided here. Two calls of
    the constructor can raise outside the reach of its handler: the
    test [self.context_file.exists()], which stands before the [try],
    and the [print] of the error message, which stands in the handler
    before [self.contexts = {}]. *)

(** What the surroundings decide: whether [exists()] raises (an error
    of the file system other than a missing file) and whether [print]
    returns (it raises when the standard output cannot encode a
    character of the message, or is closed). *)
Record Env : Type := mkEnv {
  exists_raises : bool;
  print_returns : bool
}.

Definition has_field (o : dict json) (name : string) : bool :=
  match dict_get name o with Some _ => true | None => false end.

Definition is_field_name (k : string) : bool :=
  existsb (String.eqb k) field_names.

Definition holds_string (o : dict json) (name : string) : bool :=
  match dict_get name o with Some (JStr _) => true | _ => false end.

Definition holds_type (o : dict json) : bool :=
  match dict_get "type" o with
  | Some (JStr v) =>
      match ContextType_of_value v with Some _ => true | None => false end
  | _ => false
  end.

Definition holds_priority (o : dict json) : bool :=
  match dict_get "priority" o with
  | Some (JStr v) =>
      match Priority_of_value v with Some _ => true | None => false end
  | _ => false
  end.

(** The payloads on which [from_dict] raises whatever the timestamps
    say: a value that is no object ([TypeError] at the first
    subscript), an object that lacks one of the ten field names
    ([KeyError], or [TypeError] of the constructor) or has another key
    ([TypeError] of the constructor), a timestamp that is no string
    ([TypeError] of [fromisoformat]), a type or priority that is no
    value of its enumeration ([ValueError]). *)
Definition malformed (data : json) : bool :=
  match data with
  | JObj o =>
      negb (forallb (has_field o) field_names) ||
      negb (forallb is_field_name (dict_keys o)) ||
      negb (holds_string o "created_at") ||
      negb (holds_string o "updated_at") ||
      negb (holds_type o) ||
      negb (holds_priority o)
  | _ => true
  end.

(** How the constructor ends. [Unrepresented]: the file holds a payload
    that is not malformed and that [from_dict] of the embedding does
    not read (a timestamp in another spelling, a field of another JSON
    shape than annotated); the embedding does not follow the program
    there. *)
Inductive Outcome : Type :=
| Constructed (s : State)
| Raised
| Unrepresented.

(** The handler of [load_contexts]: [print], then [self.contexts = {}]. *)
Definition handle_error (env : Env) (dflt : dict json) (f : File) : Outcome :=
  if print_returns env then Constructed (mkState [] dflt f) else Raised.

(** [ContextManager()] in the surroundings [env]. *)
Definition construct (env : Env) (dflt : dict json) (f : File) : Outcome :=
  if exists_raises env then Raised else
  match f with
  | NoFile => Constructed (mkState [] dflt f)
  | Unparseable => handle_error env dflt f
  | JsonFile j =>
      match as_obj j with
      | None => handle_error env dflt f
      | Some o =>
          if existsb malformed (dict_values o) then handle_error env dflt f
          else
            match load_items o with
            | Some d => Constructed (mkState d dflt f)
            | None => Unrepresented
            end
      end
  end.

(* ------------------------------------------------------------------ *)
(** ** The tools *)

(** The arguments of a call of [add_context]; [None] is an omitted
    optional argument. *)
Record AddArgs : Type := mkAddArgs {
  a_title : string;
  a_content : string;
  a_context_type : option ContextType;
  a_priority : option Priority;
  a_tags : option (list string);
  a_connections : option (list string);
  a_metadata : option (dict json)
}.

(** The arguments of a call of [update_context] after [context_id]. *)
Record Patch : Type := mkPatch {
  p_title : option string;
  p_content : option string;
  p_priority : option Priority;
  p_tags : option (list string);
  p_connections : option (list string);
  p_metadata : option (dict json)
}.

(** What [get_context_details] prints of a record. A [Tags],
    [Connected to] or [Metadata] section is printed when its sequence or
    mapping is not empty. *)
Record Details : Type := mkDetails {
  d_title : string;
  d_id : string;
  d_type : string;
  d_priority : string;
  d_created : string;
  d_updated : string;
  d_tags : list string;
  d_connections : list string;
  d_content : string;
  d_metadata : dict json
}.

(** What [get_context_stats] prints of a non-empty store. *)
Record Stats : Type := mkStats {
  total : nat;
  by_type : list (string * nat);
  by_priority : list (string * nat);
  most_recent : list (string * string)
}.

(** One entry of the listings of [search_context] and
    [get_recent_context]. *)
Record Summary : Type := mkSummary {
  m_title : string;
  m_type : string;
  m_priority : string;
  m_updated : string;
  m_content : string;
  m_tags : list string
}.

(** The messages of the tools. *)
Inductive Reply : Type :=
| Added (title context_id : string)
| NoMatch (query : string)
| SearchResults (query : string) (entries : list Summary)
| NoContexts
| RecentContexts (type_filter : option string) (entries : list Summary)
| NotFound (context_id : string)
| Updated (title : string)
| DetailsOf (d : Details)
| StoreEmpty
| Statistics (st : Stats).

Definition with_default {A : Type} (arg : option A) (dflt : A) : A :=
  match arg with Some a => a | None => dflt end.

(** [f"{context_type.value}_{now.strftime('%Y%m%d_%H%M%S')}"] *)
Definition make_context_id (t : ContextType) (now : datetime) : string :=
  (ContextType_value t ++ "_" ++ strftime_compact now)%string.

(** The [ContextItem] that [add_context] builds. An omitted [metadata]
    binds the parameter to the shared default object. *)
Definition new_context_item (a : AddArgs) (now : datetime) : ContextItem :=
  let context_type := with_default (a_context_type a) CONVERSATION in
  mkContextItem
    (make_context_id context_type now)
    context_type
    (a_title a)
    (a_content a)
    (with_default (a_priority a) MEDIUM)
    now
    now
    (with_default (a_tags a) [])
    (with_default (a_connections a) [])
    (match a_metadata a with Some m => Own m | None => SharedDefault end).

(** [add_context], at clock reading [now]. *)
Definition add_context (a : AddArgs) (now : datetime) (s : State)
  : Reply * State :=
  let context_item := new_context_item a now in
  (Added (a_title a) (id context_item), manager_add_context context_item s).

(** [f"{context.content[:100]}{'...' if len(context.content) > 100 else ''}"] *)
Definition preview (content : string) : string :=
  (String.substring 0 100 content ++
   (if Nat.ltb 100 (String.length content) then "..." else ""))%string.

(** The lines that the listings print of a record. *)
Definition summarize (context : ContextItem) : Summary :=
  mkSummary (title context)
    (ContextType_value (type context))
    (Priority_value (priority context))
    (strftime_minute (updated_at context))
    (preview (content context))
    (tags context).

(** [search_context]; [limit] defaults to 10. *)
Definition search_context (query : string) (context_type : option ContextType)
  (limit : option Z) (s : State) : Reply :=
  let results :=
    slice_to (with_default limit 10) (search_contexts query context_type s) in
  match results with
  | [] => NoMatch query
  | _ :: _ => SearchResults query (map summarize results)
  end.

(** [get_recent_context]; [limit] defaults to 10. *)
Definition get_recent_context (limit : option Z)
  (context_type : option ContextType) (s : State) : Reply :=
  let contexts := get_recent_contexts (with_default limit 10) context_type s in
  match contexts with
  | [] => NoContexts
  | _ :: _ =>
      RecentContexts (option_map ContextType_value context_type)
        (map summarize contexts)
  end.

(** [get_context_details] *)
Definition get_context_details (context_id : string) (s : State) : Reply :=
  match get_context context_id s with
  | None => NotFound context_id
  | Some context =>
      DetailsOf
        (mkDetails (title context) (id context)
           (ContextType_value (type context))
           (Priority_value (priority context))
           (strftime_utc (created_at context))
           (strftime_utc (updated_at context))
           (tags context) (connections context) (content context)
           (metadata_of (default_metadata s) context))
  end.

(** The assignments of [update_context] to the attributes of the record. *)
Definition patched (p : Patch) (now : datetime) (c : ContextItem)
  : ContextItem :=
  mkContextItem
    (id c)
    (type c)
    (with_default (p_title p) (title c))
    (with_default (p_content p) (content c))
    (with_default (p_priority p) (priority c))
    (created_at c)
    now
    (with_default (p_tags p) (tags c))
    (with_default (p_connections p) (connections c))
    (match p_metadata p, metadata c with
     | Some m, Own d => Own (dict_update d m)
     | _, r => r
     end).

(** The effect of [context.metadata.update(metadata)] on the default
    object, when that is the dictionary the record refers to. *)
Definition patched_default (p : Patch) (c : ContextItem) (dflt : dict json)
  : dict json :=
  match p_metadata p, metadata c with
  | Some m, SharedDefault => dict_update dflt m
  | _, _ => dflt
  end.

(** [update_context], at clock reading [now]. The record object stays
    in its slot of the mapping; its attributes are assigned in place. *)
Definition update_context (context_id : string) (p : Patch) (now : datetime)
  (s : State) : Reply * State :=
  match get_context context_id s with
  | None => (NotFound context_id, s)
  | Some context =>
      let context' := patched p now context in
      (Updated (title context'),
       save_contexts
         (mkState (dict_set context_id context' (contexts s))
            (patched_default p context (default_metadata s))
            (context_file s)))
  end.

(** The counting loops of [get_context_stats]:
    [counts[k] = counts.get(k, 0) + 1]. *)
Definition count_values (keys : list string) : dict nat :=
  fold_left
    (fun counts k =>
       dict_set k (with_default (dict_get k counts) 0%nat + 1)%nat counts)
    keys [].

(** [sorted(counts.items())]: by key; the keys of a dictionary differ,
    so the counts never decide. *)
Fixpoint insert_item (x : string * nat) (l : list (string * nat))
  : list (string * nat) :=
  match l with
  | [] => [x]
  | y :: l' =>
      if String.leb (fst x) (fst y) then x :: l else y :: insert_item x l'
  end.

Definition sorted_items (d : dict nat) : list (string * nat) :=
  fold_right insert_item [] d.

(** [get_context_stats] *)
Definition get_context_stats (s : State) : Reply :=
  let contexts := dict_values (contexts s) in
  match contexts with
  | [] => StoreEmpty
  | _ :: _ =>
      let type_counts :=
        count_values (map (fun c => ContextType_value (type c)) contexts) in
      let priority_counts :=
        count_values (map (fun c => Priority_value (priority c)) contexts) in
      let recent := firstn 3 (sorted_by_updated_desc contexts) in
      Statistics
        (mkStats (List.length contexts)
           (sorted_items type_counts)
           (sorted_items priority_counts)
           (map (fun c => (title c, strftime_minute (updated_at c))) recent))
  end.

(** A call of one of the two mutating functions with the given
    arguments, and the clock reading it takes. *)
Inductive Op : Type :=
| OpAdd (a : AddArgs) (now : datetime)
| OpUpdate (context_id : string) (p : Patch) (now : datetime).

Definition op_time (o : Op) : datetime :=
  match o with
  | OpAdd _ now => now
  | OpUpdate _ _ now => now
  end.

Definition step (s : State) (o : Op) : State :=
  match o with
  | OpAdd a now => snd (add_context a now s)
  | OpUpdate i p now => snd (update_context i p now s)
  end.

Definition run (ops : list Op) (s : State) : State := fold_left step ops s.

(** The clock readings of a run never go back. *)
Fixpoint nondecreasing (ts : list datetime) : bool :=
  match ts with
  | a :: (b :: _) as rest => datetime_leb a b && nondecreasing rest
  | _ => true
  end.

Definition clock_monotone (ops : list Op) : bool :=
  nondecreasing (map op_time ops).

(* ------------------------------------------------------------------ *)
(** ** Calls through [@mcp.tool] *)

(** The program calls the tools through the dispatch that [@mcp.tool]
    sets up. It validates the arguments of a call before it calls the
    function, and gives every omitted argument a value of its own: a
    copy of the default of the [def]. The function is so never handed
    the default [tags], [connections] or [metadata] object itself. *)
Definition validated (s : State) (a : AddArgs) : AddArgs :=
  mkAddArgs (a_title a) (a_content a)
    (Some (with_default (a_context_type a) CONVERSATION))
    (Some (with_default (a_priority a) MEDIUM))
    (Some (with_default (a_tags a) []))
    (Some (with_default (a_connections a) []))
    (Some (with_default (a_metadata a) (default_metadata s))).

(** [add_context] as the program calls it. *)
Definition tool_add_context (a : AddArgs) (now : datetime) (s : State)
  : Reply * State :=
  add_context (validated s a) now s.

(** A mutating call as the program makes it. The defaults of
    [update_context] are all [None], which the dispatch passes on. *)
Definition tool_step (s : State) (o : Op) : State :=
  match o with
  | OpAdd a now => snd (tool_add_context a now s)
  | OpUpdate i p now => snd (update_context i p now s)
  end.

Definition tool_run (ops : list Op) (s : State) : State :=
  fold_left tool_step ops s.

(* ------------------------------------------------------------------ *)
(** ** Specification predicates *)

(** The lower-cased [q] is a substring of the lower-cased [s]. *)
Definition occurs_lowered (q s : string) : Prop :=
  exists a b, lower s = (a ++ lower q ++ b)%string.

(** The records that a search for [q] returns: of the type of the
    filter, when there is one, and with the lower-cased query in the
    lower-cased title, content or one of the tags. *)
Definition is_match (q : string) (type_filter : option ContextType)
  (c : ContextItem) : Prop :=
  (forall t, type_filter = Some t -> type c = t) /\
  (occurs_lowered q (title c) \/
   occurs_lowered q (content c) \/
   exists tag, In tag (tags c) /\ occurs_lowered q tag).

(** [str.casefold] on the characters of the embedding, as code points:
    the key of caseless matching. It lower-cases the capital letters,
    writes the sharp s (223) as two letters s and the micro sign (181)
    as the Greek letter mu (956). *)
Definition casefold_char (c : ascii) : list N :=
  let n := N_of_ascii c in
  if ((65 <=? n) && (n <=? 90) ||
      (192 <=? n) && (n <=? 222) && negb (n =? 215))%N
  then [(n + 32)%N]
  else if (n =? 223)%N then [115%N; 115%N]
  else if (n =? 181)%N then [956%N]
  else [n].

Definition casefold (s : string) : list N :=
  flat_map casefold_char (list_ascii_of_string s).

(** [q] occurs in [s] up to the case of the letters: a segment of [s]
    and [q] have the same case folding. *)
Definition occurs_caseless (q s : string) : Prop :=
  exists a m b, s = (a ++ m ++ b)%string /\ casefold m = casefold q.

(** A list of records in descending order of [updated_at]. *)
Definition newest_first (l : list ContextItem) : Prop :=
  StronglySorted (fun a b => datetime_le (updated_at b) (updated_at a)) l.

(** The number of records of a type, of a priority. *)
Definition count_type (t : ContextType) (l : list ContextItem) : nat :=
  List.length (filter (fun c => ContextType_eqb (type c) t) l).

Definition Priority_eqb (a b : Priority) : bool :=
  String.eqb (Priority_value a) (Priority_value b).

Definition count_priority (p : Priority) (l : list ContextItem) : nat :=
  List.length (filter (fun c => Priority_eqb (priority c) p) l).

(** A count as a counting dictionary holds it: no entry for zero. *)
Definition positive (n : nat) : option nat :=
  match n with O => None | S _ => Some n end.

(** The invariants of the data of a store: the keys of the mapping
    differ and every timestamp is a [datetime] value. *)
Definition item_ok (c : ContextItem) : Prop :=
  datetime_valid (created_at c) = true /\ datetime_valid (updated_at c) = true.

Definition store_ok (s : State) : Prop :=
  dict_wf (contexts s) /\ Forall item_ok (dict_values (contexts s)).

(** [updated_at >= created_at] on every record of the store. *)
Definition timestamps_ordered (s : State) : Prop :=
  forall k c, get_context k s = Some c ->
              datetime_le (created_at c) (updated_at c).

(** Every record was created no later than it was last updated, and
    last updated no later than [t]. *)
Definition stamped_before (t : datetime) (s : State) : Prop :=
  forall k c, get_context k s = Some c ->
    datetime_le (created_at c) (updated_at c) /\ datetime_le (updated_at c) t.

(** A patch that provides [metadata] only. *)
Definition metadata_only (m : dict json) : Patch :=
  mkPatch None None None None None (Some m).

(* ------------------------------------------------------------------ *)
(** ** Concrete inputs *)

Module Ex.

(** Clock readings: three instants of 3 November 2026, the first two
    within the same second. *)
Definition t1 : datetime := mkdatetime 2026 11 3 17 8 0 250000.
Definition t1' : datetime := mkdatetime 2026 11 3 17 8 0 750000.
Definition t2 : datetime := mkdatetime 2026 11 3 17 9 30 0.
Definition t3 : datetime := mkdatetime 2026 11 3 17 10 45 125.
Definition t4 : datetime := mkdatetime 2026 11 3 17 12 0 0.

(** [add_context("Alpha", "first note")] *)
Definition add_alpha : AddArgs :=
  mkAddArgs "Alpha" "first note" None None None None None.

(** [add_context("Beta", "second note", ContextType.TASK)] *)
Definition add_beta : AddArgs :=
  mkAddArgs "Beta" "second note" (Some TASK) None None None None.

(** [add_context("Gamma", "Third NOTE", ContextType.DECISION,
    Priority.HIGH, ["Urgent"], ["task_20261103_170930"], {"owner": "eve"})] *)
Definition add_gamma : AddArgs :=
  mkAddArgs "Gamma" "Third NOTE" (Some DECISION) (Some HIGH)
    (Some ["Urgent"]) (Some ["task_20261103_170930"])
    (Some [("owner", JStr "eve")]).

(** [add_context("Delta", "fourth note")] *)
Definition add_delta : AddArgs :=
  mkAddArgs "Delta" "fourth note" None None None None None.

Definition kv : dict json := [("k", JStr "v")].

(** A fresh process without a backing file. *)
Definition s0 : State := startup NoFile.

(** Two records created with the [metadata] argument omitted. *)
Definition s1 : State := snd (add_context add_alpha t1 s0).
Definition s2 : State := snd (add_context add_beta t2 s1).

(** [update_context("conversation_20261103_170800", metadata={"k": "v"})] *)
Definition s3 : State :=
  snd (update_context "conversation_20261103_170800" (metadata_only kv) t3 s2).

(** A store with three records. *)
Definition s4 : State := snd (add_context add_gamma t3 s2).

End Ex.

(* ------------------------------------------------------------------ *)
(** ** Further specification predicates *)

(** Every record is stored under its own [id], and that [id] is the one
    its type and creation time give. *)
Definition ids_from_creation (s : State) : Prop :=
  forall k c, get_context k s = Some c ->
              id c = k /\ k = make_context_id (type c) (created_at c).


(** The type filter of the listings, as a property of a record. *)
Definition of_type (type_filter : option ContextType) (c : ContextItem)
  : Prop :=
  forall t, type_filter = Some t -> type c = t.

(** No record of [older] was updated after a record of [newer]. *)
Definition none_newer (older newer : list ContextItem) : Prop :=
  forall a b, In a newer -> In b older ->
              datetime_le (updated_at b) (updated_at a).


(** The order of the lines of a count listing: by name, ascending,
    no name twice. *)
Definition by_name (a b : string * nat) : Prop :=
  String.ltb (fst a) (fst b) = true.

(** No record refers to the default [metadata] object of [add_context],
    and that object is as the [def] created it: empty. *)
Definition own_metadata (s : State) : Prop :=
  default_metadata s = [] /\
  Forall (fun c => exists m, metadata c = Own m) (dict_values (contexts s)).

(** A patch that provides nothing. *)
Definition empty_patch : Patch := mkPatch None None None None None None.

Module Ex2.

(** A second process, started over the file that [Ex.s3] left. *)
Definition restarted : State := startup (context_file Ex.s3).

(** [update_context("task_20261103_170930", title="Beta 2", tags=[])] *)
Definition retitle : Patch :=
  mkPatch (Some "Beta 2") None None (Some []) None None.

Definition run3 : list Op :=
  [OpAdd Ex.add_alpha Ex.t1; OpAdd Ex.add_beta Ex.t2;
   OpUpdate "conversation_20261103_170800" (metadata_only Ex.kv) Ex.t3].

(** The three calls of [run3] as the program makes them. *)
Definition served : State := tool_run run3 (startup NoFile).

(** The title "Strasse" written with a sharp s (code point 223). *)
Definition strasse : string := ("Stra" ++ String "223"%char "e")%string.

(** A store with one record, titled [strasse]. *)
Definition street : State :=
  snd (tool_add_context
         (mkAddArgs strasse "a street name" None None None None None)
         Ex.t1 (startup NoFile)).

(** A backing file with one entry that has the ten fields and one key
    more, written with a character above the ASCII range. The
    constructor of the dataclass rejects the key and names it in its
    message. *)
Definition extra_key_file : File :=
  JsonFile
    (JObj [("task_20261103_170930",
            match to_dict [] (new_context_item Ex.add_beta Ex.t2) with
            | JObj o => JObj (o ++ [(String "233"%char "", JNull)])
            | j => j
            end)]).

(** A standard output that cannot encode the message, and one that can. *)
Definition strict_console : Env := mkEnv false false.
Definition plain_console : Env := mkEnv false true.

(** A backing file that cannot be examined. *)
Definition no_access : Env := mkEnv true true.

End Ex2.
(* ------------------------------------------------------------------ *)
(** ** Facts about dictionaries *)

Section DictFacts.
Context {V : Type}.
Implicit Types (d m : dict V) (k : string) (v : V).

Lemma dict_get_set_same k v d : dict_get k (dict_set k v d) = Some v.
Proof.
  induction d as [|[k' v'] d IH]; simpl.
  - now rewrite String.eqb_refl.
  - destruct (String.eqb k k') eqn:E; simpl; rewrite E; auto.
Qed.

Lemma dict_get_set_other k k' v d :
  k' <> k -> dict_get k' (dict_set k v d) = dict_get k' d.
Proof.
  intros Hne. induction d as [|[k0 v0] d IH]; simpl.
  - destruct (String.eqb k' k) eqn:E; auto.
    apply String.eqb_eq in E. contradiction.
  - destruct (String.eqb k k0) eqn:E; simpl.
    + apply String.eqb_eq in E. subst k0.
      destruct (String.eqb k' k) eqn:E'; auto.
      apply String.eqb_eq in E'. contradiction.
    + now rewrite IH.
Qed.

Lemma dict_get_None_notin k d :
  dict_get k d = None <-> ~ In k (dict_keys d).
Proof.
  induction d as [|[k' v'] d IH]; simpl.
  - tauto.
  - destruct (String.eqb k k') eqn:E.
    + apply String.eqb_eq in E. subst. split; [discriminate | tauto].
    + apply String.eqb_neq in E. rewrite IH. split.
      * intros H [H1 | H1]; [congruence | tauto].
      * tauto.
Qed.

Lemma dict_get_Some_in k v d : dict_get k d = Some v -> In (k, v) d.
Proof.
  induction d as [|[k' v'] d IH]; simpl; [discriminate|].
  destruct (String.eqb k k') eqn:E.
  - apply String.eqb_eq in E. intros [= ->]. subst. now left.
  - auto.
Qed.

Lemma dict_in_get k v d : dict_wf d -> In (k, v) d -> dict_get k d = Some v.
Proof.
  unfold dict_wf. induction d as [|[k' v'] d IH]; simpl; [tauto|].
  intros Hnd [H | H].
  - injection H as -> ->. now rewrite String.eqb_refl.
  - inversion Hnd as [|? ? Hni Hnd']; subst.
    destruct (String.eqb k k') eqn:E.
    + apply String.eqb_eq in E. subst k'. exfalso. apply Hni.
      apply in_map_iff. now exists (k, v).
    + auto.
Qed.

Lemma dict_set_absent k v d :
  dict_get k d = None -> dict_set k v d = d ++ [(k, v)].
Proof.
  induction d as [|[k' v'] d IH]; simpl; auto.
  destruct (String.eqb k k'); [discriminate|].
  intros H. now rewrite IH.
Qed.

Lemma dict_keys_set_present k v d :
  dict_get k d <> None -> dict_keys (dict_set k v d) = dict_keys d.
Proof.
  induction d as [|[k' v'] d IH]; simpl; [congruence|].
  destruct (String.eqb k k') eqn:E; simpl; auto.
  intros H. now rewrite IH.
Qed.

Lemma dict_len_set_present k v d :
  dict_get k d <> None -> dict_len (dict_set k v d) = dict_len d.
Proof.
  intros H. unfold dict_len.
  rewrite <- (length_map fst (dict_set k v d)), <- (length_map fst d).
  fold (dict_keys (dict_set k v d)). fold (dict_keys d).
  now rewrite dict_keys_set_present.
Qed.

Lemma dict_len_set_absent k v d :
  dict_get k d = None -> dict_len (dict_set k v d) = S (dict_len d).
Proof.
  intros H. rewrite dict_set_absent by assumption.
  unfold dict_len. rewrite length_app. simpl. lia.
Qed.

Lemma dict_set_wf k v d : dict_wf d -> dict_wf (dict_set k v d).
Proof.
  intros Hwf. destruct (dict_get k d) eqn:E.
  - unfold dict_wf. rewrite dict_keys_set_present; [assumption | congruence].
  - rewrite dict_set_absent by assumption.
    unfold dict_wf, dict_keys. rewrite map_app. simpl.
    apply NoDup_app_remove_l with (l := []). simpl.
    apply Permutation_NoDup with (l := k :: map fst d).
    + apply Permutation_cons_append.
    + constructor; [now apply dict_get_None_notin | exact Hwf].
Qed.

Lemma dict_update_wf d m : dict_wf d -> dict_wf (dict_update d m).
Proof.
  unfold dict_update. revert d.
  induction m as [|[k v] m IH]; simpl; intros d Hwf; auto.
  apply IH. now apply dict_set_wf.
Qed.

(** Lookup after [d.update(m)]: the keys of [m] take [m]'s value, every
    other key keeps the value it had in [d]. *)
Lemma dict_get_update_absent k d m :
  dict_get k m = None -> dict_get k (dict_update d m) = dict_get k d.
Proof.
  unfold dict_update. revert d.
  induction m as [|[k' v'] m IH]; simpl; intros d H; auto.
  destruct (String.eqb k k') eqn:E; [discriminate|].
  rewrite IH by assumption.
  apply dict_get_set_other. now apply String.eqb_neq.
Qed.

Lemma dict_get_update_present k v d m :
  dict_wf m -> dict_get k m = Some v ->
  dict_get k (dict_update d m) = Some v.
Proof.
  unfold dict_update, dict_wf. revert d.
  induction m as [|[k' v'] m IH]; simpl; intros d Hwf H; [discriminate|].
  inversion Hwf as [|? ? Hni Hnd]; subst.
  destruct (String.eqb k k') eqn:E.
  - apply String.eqb_eq in E. subst k'. injection H as ->.
    fold (dict_update (dict_set k v d) m).
    rewrite dict_get_update_absent.
    + apply dict_get_set_same.
    + now apply dict_get_None_notin.
  - now apply IH.
Qed.

(** A comprehension over items with distinct keys rebuilds the items. *)
Lemma dict_update_app_fresh d m :
  dict_wf (d ++ m) -> dict_update d m = d ++ m.
Proof.
  unfold dict_update. revert d.
  induction m as [|[k v] m IH]; simpl; intros d Hwf.
  - now rewrite app_nil_r.
  - assert (Hk : dict_get k d = None).
    { apply dict_get_None_notin. unfold dict_wf, dict_keys in Hwf.
      rewrite map_app in Hwf. simpl in Hwf.
      apply NoDup_remove_2 in Hwf. intros Hin. apply Hwf.
      apply in_or_app. now left. }
    rewrite dict_set_absent by assumption.
    rewrite IH; rewrite <- app_assoc; simpl; auto.
Qed.

Lemma dict_of_items_wf (items : list (string * V)) :
  dict_wf items -> dict_of_items items = items.
Proof.
  intros H. unfold dict_of_items. now rewrite dict_update_app_fresh.
Qed.

End DictFacts.

(* ------------------------------------------------------------------ *)
(** ** Facts about timestamps *)

Section DatetimeFacts.

Lemma digit_val_digit d : 0 <= d <= 9 -> digit_val (digit d) = Some d.
Proof.
  intros H.
  assert (Hd : In d [0;1;2;3;4;5;6;7;8;9]) by (simpl; lia).
  simpl in Hd.
  repeat (destruct Hd as [<- | Hd]; [reflexivity|]). contradiction.
Qed.

(** Reading one more digit amounts to reading the shorter number first. *)
Lemma read_digits_S w : forall acc l,
  read_digits (S w) acc l =
  match read_digits w acc l with
  | Some (a, c :: l') =>
      match digit_val c with Some d => Some (10 * a + d, l') | None => None end
  | _ => None
  end.
Proof.
  induction w as [|w IH]; intros acc l.
  - simpl. destruct l as [|c l']; auto.
  - change (read_digits (S (S w)) acc l) with
      (match l with
       | [] => None
       | c :: l' =>
           match digit_val c with
           | Some d => read_digits (S w) (10 * acc + d) l'
           | None => None
           end
       end).
    destruct l as [|c l']; [reflexivity|].
    simpl (read_digits (S w) acc (c :: l')).
    destruct (digit_val c); [|reflexivity].
    apply IH.
Qed.

Lemma read_digits_zpad w : forall n acc rest,
  0 <= n < 10 ^ Z.of_nat w ->
  read_digits w acc (zpad w n ++ rest) = Some (acc * 10 ^ Z.of_nat w + n, rest).
Proof.
  induction w as [|w IH]; intros n acc rest Hn.
  - simpl in *. f_equal. f_equal. lia.
  - rewrite read_digits_S.
    change (zpad (S w) n) with (zpad w (n / 10) ++ [digit (n mod 10)]).
    rewrite <- app_assoc. simpl app.
    rewrite Nat2Z.inj_succ, Z.pow_succ_r in Hn by lia.
    rewrite IH by (split; [apply Z.div_pos; lia | apply Z.div_lt_upper_bound; lia]).
    rewrite digit_val_digit by (pose proof (Z.mod_pos_bound n 10); lia).
    f_equal. f_equal.
    rewrite Nat2Z.inj_succ, Z.pow_succ_r by lia.
    pose proof (Z.div_mod n 10 ltac:(lia)). lia.
Qed.

Lemma expect_app lit rest : expect lit (lit ++ rest) = Some rest.
Proof.
  induction lit as [|c lit IH]; simpl; auto.
  now rewrite Ascii.eqb_refl.
Qed.

Lemma in_range_spec lo hi x : in_range lo hi x = true <-> lo <= x <= hi.
Proof. unfold in_range. rewrite andb_true_iff, !Z.leb_le. tauto. Qed.

Lemma datetime_valid_spec t :
  datetime_valid t = true ->
  1 <= year t <= 9999 /\ 1 <= month t <= 12 /\ 1 <= day t <= 31 /\
  0 <= hour t <= 23 /\ 0 <= minute t <= 59 /\ 0 <= second t <= 59 /\
  0 <= microsecond t <= 999999.
Proof.
  unfold datetime_valid. rewrite !andb_true_iff, !in_range_spec.
  intros [[[[[[Hy Hm] Hd] Hh] Hmi] Hs] Hu].
  assert (Hdm : days_in_month (year t) (month t) <= 31).
  { unfold days_in_month.
    destruct (is_leap (year t)); destruct (month t) as [|p|p]; try lia;
      repeat (destruct p as [p|p|]; try lia). }
  repeat split; lia.
Qed.

(** Reading back what [isoformat] wrote gives the same instant, down to
    the microsecond. *)
Lemma fromisoformat_isoformat t :
  datetime_valid t = true -> fromisoformat (isoformat t) = Some t.
Proof.
  intros Hv. pose proof (datetime_valid_spec t Hv) as (Hy & Hm & Hd & Hh & Hmi & Hs & Hu).
  unfold fromisoformat, isoformat, chars.
  rewrite list_ascii_of_string_of_list_ascii.
  rewrite read_digits_zpad by (simpl; lia).
  rewrite expect_app.
  rewrite read_digits_zpad by (simpl; lia).
  rewrite expect_app.
  rewrite read_digits_zpad by (simpl; lia).
  rewrite expect_app.
  rewrite read_digits_zpad by (simpl; lia).
  rewrite expect_app.
  rewrite read_digits_zpad by (simpl; lia).
  rewrite expect_app.
  rewrite read_digits_zpad by (simpl; lia).
  destruct (microsecond t =? 0) eqn:Eus.
  - apply Z.eqb_eq in Eus.
    simpl app. cbn [read_fraction list_ascii_of_string].
    change (list_ascii_of_string "+00:00") with (list_ascii_of_string "+00:00" ++ []).
    cbn [read_fraction].
    replace (mkdatetime _ _ _ _ _ _ 0) with t
      by (destruct t; simpl in *; subst; f_equal; lia).
    simpl. now rewrite Hv.
  - cbn [list_ascii_of_string app read_fraction].
    rewrite read_digits_zpad by (simpl; lia).
    change ["+"%char; "0"%char; "0"%char; ":"%char; "0"%char; "0"%char]
      with (list_ascii_of_string "+00:00" ++ []).
    rewrite expect_app.
    replace (mkdatetime _ _ _ _ _ _ _) with t
      by (destruct t; simpl in *; f_equal; lia).
    now rewrite Hv.
Qed.

End DatetimeFacts.

Section DatetimeOrder.

Lemma lex_compare_refl a : lex_compare a a = Eq.
Proof. induction a as [|x a IH]; simpl; auto. now rewrite Z.compare_refl. Qed.

Lemma lex_compare_antisym a : forall b,
  lex_compare b a = CompOpp (lex_compare a b).
Proof.
  induction a as [|x a IH]; intros [|y b]; simpl; auto.
  rewrite (Z.compare_antisym x y).
  destruct (x ?= y); simpl; auto.
Qed.

Lemma lex_compare_le_trans a : forall b c,
  lex_compare a b <> Gt -> lex_compare b c <> Gt -> lex_compare a c <> Gt.
Proof.
  induction a as [|x a IH]; intros [|y b] [|z c]; simpl; try congruence.
  destruct (Z.compare_spec x y), (Z.compare_spec y z), (Z.compare_spec x z);
    try congruence; try lia; intros; eauto.
Qed.

Lemma datetime_leb_refl t : datetime_leb t t = true.
Proof. unfold datetime_leb, datetime_compare. now rewrite lex_compare_refl. Qed.

Lemma datetime_ltb_leb a b : datetime_ltb a b = negb (datetime_leb b a).
Proof.
  unfold datetime_ltb, datetime_leb, datetime_compare.
  rewrite (lex_compare_antisym (fields a) (fields b)).
  destruct (lex_compare (fields a) (fields b)); reflexivity.
Qed.

Lemma datetime_leb_total a b : datetime_leb a b = true \/ datetime_leb b a = true.
Proof.
  unfold datetime_leb, datetime_compare.
  rewrite (lex_compare_antisym (fields a) (fields b)).
  destruct (lex_compare (fields a) (fields b)); simpl; auto.
Qed.

Lemma datetime_leb_trans a b c :
  datetime_leb a b = true -> datetime_leb b c = true -> datetime_leb a c = true.
Proof.
  unfold datetime_leb, datetime_compare. intros H1 H2.
  pose proof (lex_compare_le_trans (fields a) (fields b) (fields c)) as H.
  destruct (lex_compare (fields a) (fields b)); try discriminate;
  destruct (lex_compare (fields b) (fields c)); try discriminate;
  destruct (lex_compare (fields a) (fields c)); auto;
  exfalso; apply H; congruence.
Qed.

End DatetimeOrder.

(* ------------------------------------------------------------------ *)
(** ** Facts about strings *)

Section StrFacts.
Local Open Scope string_scope.

Lemma prefix_spec p : forall s,
  String.prefix p s = true <-> exists r, s = p ++ r.
Proof.
  induction p as [|a p IH]; intros s.
  - split; [intros _; now exists s | intros _; now destruct s].
  - destruct s as [|b s]; simpl.
    + split; [discriminate | intros [r Hr]; discriminate].
    + destruct (ascii_dec a b) as [->|Hne].
      * rewrite IH. split; intros [r Hr]; exists r; congruence.
      * split; [discriminate | intros [r Hr]; congruence].
Qed.

(** [needle in hay] holds exactly when [hay] splits around [needle]. *)
Lemma contains_spec needle : forall hay,
  contains needle hay = true <-> exists a b, hay = a ++ needle ++ b.
Proof.
  induction hay as [|c hay IH].
  - change (contains needle "") with (String.prefix needle "" || false).
    rewrite orb_true_iff. split.
    + intros [H | H]; [|discriminate].
      apply prefix_spec in H. destruct H as [r Hr]. now exists "", r.
    + intros (a & b & H). left. apply prefix_spec.
      destruct a; simpl in H; [now exists b | discriminate].
  - change (contains needle (String c hay))
      with (String.prefix needle (String c hay) || contains needle hay).
    rewrite orb_true_iff, IH. split.
    + intros [H | (a & b & H)].
      * apply prefix_spec in H. destruct H as [r Hr]. now exists "", r.
      * exists (String c a), b. simpl. now rewrite H.
    + intros (a & b & H). destruct a as [|c' a]; simpl in H.
      * left. apply prefix_spec. now exists b.
      * right. exists a, b. congruence.
Qed.

(** Capital letters beyond ASCII are lower-cased too. *)
Lemma lower_capital_e_acute :
  lower (String "201"%char "COLE") = String "233"%char "cole".
Proof. reflexivity. Qed.

Lemma lower_app a : forall b, lower (a ++ b) = lower a ++ lower b.
Proof. induction a as [|c a IH]; intros b; simpl; [|rewrite IH]; auto. Qed.

(** [lower] works character by character: a split of the lowered text
    comes from a split of the text. *)
Lemma lower_split x : forall s y,
  lower s = x ++ y -> exists s1 s2, s = s1 ++ s2 /\ lower s1 = x /\ lower s2 = y.
Proof.
  induction x as [|c x IH]; intros s y H; simpl in H.
  - now exists "", s.
  - destruct s as [|c' s]; simpl in H; [discriminate|].
    injection H as Hc H. apply IH in H. destruct H as (s1 & s2 & -> & <- & <-).
    exists (String c' s1), s2. simpl. now rewrite Hc.
Qed.

Lemma contains_lower_spec q s :
  contains (lower q) (lower s) = true <-> occurs_lowered q s.
Proof. apply contains_spec. Qed.

End StrFacts.

(* ------------------------------------------------------------------ *)
(** ** Facts about the model *)

Section EnumFacts.

Lemma ContextType_of_value_value t :
  ContextType_of_value (ContextType_value t) = Some t.
Proof. destruct t; reflexivity. Qed.

Lemma Priority_of_value_value p :
  Priority_of_value (Priority_value p) = Some p.
Proof. destruct p; reflexivity. Qed.

Lemma ContextType_value_inj a b :
  ContextType_value a = ContextType_value b -> a = b.
Proof.
  intros H. apply (f_equal ContextType_of_value) in H.
  rewrite !ContextType_of_value_value in H. congruence.
Qed.

Lemma Priority_value_inj a b :
  Priority_value a = Priority_value b -> a = b.
Proof.
  intros H. apply (f_equal Priority_of_value) in H.
  rewrite !Priority_of_value_value in H. congruence.
Qed.

Lemma ContextType_eqb_eq a b : ContextType_eqb a b = true <-> a = b.
Proof.
  unfold ContextType_eqb. rewrite String.eqb_eq. split.
  - apply ContextType_value_inj.
  - now intros ->.
Qed.

Lemma Priority_eqb_eq a b : Priority_eqb a b = true <-> a = b.
Proof.
  unfold Priority_eqb. rewrite String.eqb_eq. split.
  - apply Priority_value_inj.
  - now intros ->.
Qed.

End EnumFacts.

Section SortFacts.

Lemma insert_desc_perm x l : Permutation (insert_desc x l) (x :: l).
Proof.
  induction l as [|y l IH]; simpl; auto.
  destruct (datetime_ltb (updated_at x) (updated_at y)); auto.
  rewrite IH. apply perm_swap.
Qed.

Lemma sorted_by_updated_desc_perm l : Permutation (sorted_by_updated_desc l) l.
Proof.
  induction l as [|x l IH]; simpl; auto.
  rewrite insert_desc_perm. now constructor.
Qed.

Lemma insert_desc_sorted x l : newest_first l -> newest_first (insert_desc x l).
Proof.
  unfold newest_first. induction l as [|y l IH]; simpl; intros Hs.
  - repeat constructor.
  - inversion Hs as [|? ? Hs' Hall]; subst.
    destruct (datetime_ltb (updated_at x) (updated_at y)) eqn:E.
    + constructor; [auto|].
      apply (Permutation_Forall (Permutation_sym (insert_desc_perm x l))).
      constructor; [|assumption].
      rewrite datetime_ltb_leb in E. apply negb_true_iff in E.
      destruct (datetime_leb_total (updated_at x) (updated_at y)); [assumption|].
      unfold datetime_le. congruence.
    + rewrite datetime_ltb_leb in E. apply negb_false_iff in E.
      constructor; [assumption|].
      constructor; [exact E|].
      eapply Forall_impl; [|exact Hall]. simpl. intros z Hz.
      unfold datetime_le in *. eapply datetime_leb_trans; eassumption.
Qed.

Lemma sorted_by_updated_desc_sorted l : newest_first (sorted_by_updated_desc l).
Proof.
  induction l as [|x l IH]; simpl.
  - constructor.
  - now apply insert_desc_sorted.
Qed.

End SortFacts.

Section SerializationFacts.

Lemma as_str_list_aux_map l : as_str_list_aux (map JStr l) = Some l.
Proof. induction l as [|x l IH]; simpl; [|rewrite IH]; auto. Qed.

(** Deserializing a serialized record gives the record back, with the
    metadata it denoted in a dictionary of its own. *)
Lemma from_dict_to_dict dflt c :
  item_ok c -> from_dict (to_dict dflt c) = Some (snapshot dflt c).
Proof.
  intros [Hc Hu]. unfold from_dict, to_dict, subscript.
  cbn [as_obj dict_get String.eqb Ascii.eqb Bool.eqb as_str].
  simpl dict_get.
  rewrite !fromisoformat_isoformat by assumption.
  rewrite ContextType_of_value_value, Priority_of_value_value.
  simpl. rewrite !as_str_list_aux_map. reflexivity.
Qed.

Lemma load_items_acc (dflt : dict json) (l : dict ContextItem) : forall acc,
  Forall item_ok (dict_values l) ->
  fold_left
    (fun acc kv =>
       let* d := acc in
       let* c := from_dict (snd kv) in
       Some (dict_set (fst kv) c d))
    (map (fun kc => (fst kc, to_dict dflt (snd kc))) l) (Some acc)
  = Some (dict_update acc (map (fun kc => (fst kc, snapshot dflt (snd kc))) l)).
Proof.
  induction l as [|[k c] l IH]; intros acc Hok; simpl.
  - reflexivity.
  - inversion Hok as [|? ? Hc Hl]; subst.
    rewrite from_dict_to_dict by assumption.
    now rewrite IH.
Qed.

Lemma store_snapshot_keys s : dict_keys (store_snapshot s) = dict_keys (contexts s).
Proof.
  unfold store_snapshot, dict_keys. rewrite map_map. reflexivity.
Qed.

Lemma snapshot_idem d d' c : snapshot d' (snapshot d c) = snapshot d c.
Proof. reflexivity. Qed.

End SerializationFacts.

(* ------------------------------------------------------------------ *)
(** ** Invariants of the data of a store *)

Section StoreOk.



Lemma Forall_dict_set {V : Type} (P : V -> Prop) k v (d : dict V) :
  P v -> Forall P (dict_values d) -> Forall P (dict_values (dict_set k v d)).
Proof.
  intros Hv. induction d as [|[k' v'] d IH]; simpl; intros H.
  - repeat constructor. assumption.
  - inversion H; subst. destruct (String.eqb k k'); simpl; constructor; auto.
Qed.


Lemma load_items_fails data : forall acc,
  Exists (fun kv => from_dict (snd kv) = None) data ->
  fold_left
    (fun acc kv =>
       let* d := acc in
       let* c := from_dict (snd kv) in
       Some (dict_set (fst kv) c d))
    data acc = None.
Proof.
  assert (Hnone : forall l : dict json,
    fold_left
      (fun acc kv =>
         let* d := acc in
         let* c := from_dict (snd kv) in
         Some (dict_set (fst kv) c d))
      l None = None).
  { induction l as [|x l IH]; simpl; auto. }
  induction data as [|[k j] data IH]; intros acc H; inversion H; subst; simpl in *.
  - destruct acc; match goal with Hf : from_dict _ = None |- _ => rewrite ?Hf end;
      apply Hnone.
  - apply IH. assumption.
Qed.



End StoreOk.

(* ------------------------------------------------------------------ *)
(** ** Persistence *)

(** C2. Round trip: after [save_contexts], a fresh [ContextManager]
    built over the written file holds a mapping equal to the one that was
    saved, key for key and field for field; the timestamps come back
    exactly, hence also to the second. *)
Theorem save_load_roundtrip (s : State) (dflt : dict json) :
  store_ok s ->
  store_snapshot (ContextManager_init dflt (context_file (save_contexts s)))
  = store_snapshot s.
Proof.
  intros [Hwf Hok].
  unfold ContextManager_init, load_contexts, save_contexts. simpl.
  unfold load_items. rewrite load_items_acc by assumption.
  rewrite dict_update_app_fresh.
  - unfold store_snapshot. simpl. rewrite map_map. reflexivity.
  - simpl. unfold dict_wf. fold (store_snapshot s).
    now rewrite store_snapshot_keys.
Qed.

Lemma save_load_roundtrip_witness :
  store_ok Ex.s4 /\
  store_snapshot (ContextManager_init [] (context_file (save_contexts Ex.s4)))
  = store_snapshot Ex.s4.
Proof.
  assert (H : store_ok Ex.s4).
  { split.
    - repeat constructor; simpl; intuition discriminate.
    - repeat constructor. }
  split; [exact H | exact (save_load_roundtrip Ex.s4 [] H)].
Defined.

(* ------------------------------------------------------------------ *)
(** ** Creation and lookup *)

Section AddFacts.

Lemma contexts_save s : contexts (save_contexts s) = contexts s.
Proof. reflexivity. Qed.

Lemma contexts_add a now s :
  contexts (snd (add_context a now s))
  = dict_set (id (new_context_item a now)) (new_context_item a now) (contexts s).
Proof. reflexivity. Qed.

Lemma default_metadata_add a now s :
  default_metadata (snd (add_context a now s)) = default_metadata s.
Proof. reflexivity. Qed.

Lemma get_context_add a now s :
  get_context (id (new_context_item a now)) (snd (add_context a now s))
  = Some (new_context_item a now).
Proof. unfold get_context. simpl. apply dict_get_set_same. Qed.

Lemma get_context_add_other a now s k :
  k <> id (new_context_item a now) ->
  get_context k (snd (add_context a now s)) = get_context k s.
Proof. intros H. unfold get_context. simpl. now apply dict_get_set_other. Qed.

(** X22. What [get_context_details] shows right after [add_context]: the
    inputs, the defaults of the omitted ones, and for an omitted
    [metadata] the present content of the shared default dictionary. *)
Lemma add_then_get_details a now s :
  exists cid,
    fst (add_context a now s) = Added (a_title a) cid /\
    cid = make_context_id (with_default (a_context_type a) CONVERSATION) now /\
    get_context_details cid (snd (add_context a now s)) =
    DetailsOf
      (mkDetails (a_title a) cid
         (ContextType_value (with_default (a_context_type a) CONVERSATION))
         (Priority_value (with_default (a_priority a) MEDIUM))
         (strftime_utc now) (strftime_utc now)
         (with_default (a_tags a) [])
         (with_default (a_connections a) [])
         (a_content a)
         (with_default (a_metadata a) (default_metadata s))).
Proof.
  eexists. split; [reflexivity|]. split; [reflexivity|].
  unfold get_context_details.
  change (make_context_id _ now) with (id (new_context_item a now)).
  rewrite get_context_add. simpl.
  unfold metadata_of. simpl. now destruct (a_metadata a).
Qed.

Lemma same_second_strftime t u :
  same_second t u -> strftime_compact t = strftime_compact u.
Proof.
  intros (Hy & Hm & Hd & Hh & Hmi & Hs). unfold strftime_compact. congruence.
Qed.

End AddFacts.

(** C3. Two [add_context] calls of the same type within one wall-clock
    second return the same ID, the type's value, an underscore and the
    digits of the date and time; the second record takes the place of
    the first and the store does not grow a second time. *)
Theorem same_second_collision (a1 a2 : AddArgs) (now1 now2 : datetime)
  (s : State) :
  with_default (a_context_type a1) CONVERSATION
  = with_default (a_context_type a2) CONVERSATION ->
  same_second now1 now2 ->
  let s1 := snd (add_context a1 now1 s) in
  let s2 := snd (add_context a2 now2 s1) in
  exists cid,
    fst (add_context a1 now1 s) = Added (a_title a1) cid /\
    fst (add_context a2 now2 s1) = Added (a_title a2) cid /\
    cid = (ContextType_value (with_default (a_context_type a1) CONVERSATION)
           ++ "_" ++
           string_of_list_ascii
             (zpad 4 (year now1) ++ zpad 2 (month now1) ++ zpad 2 (day now1) ++
              chars "_" ++
              zpad 2 (hour now1) ++ zpad 2 (minute now1) ++
              zpad 2 (second now1)))%string /\
    get_context cid s1 = Some (new_context_item a1 now1) /\
    get_context cid s2 = Some (new_context_item a2 now2) /\
    dict_len (contexts s2) = dict_len (contexts s1) /\
    (dict_len (contexts s2) <= dict_len (contexts s) + 1)%nat.
Proof.
  intros Ht Hsec s1 s2.
  assert (Hid : id (new_context_item a2 now2) = id (new_context_item a1 now1)).
  { simpl. unfold make_context_id.
    now rewrite Ht, (same_second_strftime now1 now2 Hsec). }
  exists (id (new_context_item a1 now1)).
  split; [reflexivity|].
  split; [change (fst (add_context a2 now2 s1))
            with (Added (a_title a2) (id (new_context_item a2 now2)));
          now rewrite Hid|].
  split; [reflexivity|].
  split; [apply get_context_add|].
  split; [rewrite <- Hid; apply get_context_add|].
  assert (Hlen : dict_len (contexts s2) = dict_len (contexts s1)).
  { unfold s2. rewrite contexts_add. apply dict_len_set_present.
    rewrite Hid. unfold s1. rewrite contexts_add.
    now rewrite dict_get_set_same. }
  split; [exact Hlen|].
  rewrite Hlen. unfold s1. rewrite contexts_add.
  destruct (dict_get (id (new_context_item a1 now1)) (contexts s)) eqn:E.
  - rewrite dict_len_set_present; [lia | congruence].
  - rewrite dict_len_set_absent; [lia | exact E].
Qed.

Lemma same_second_collision_witness :
  exists cid,
    fst (add_context Ex.add_alpha Ex.t1 Ex.s0) = Added "Alpha" cid /\
    fst (add_context Ex.add_delta Ex.t1'
           (snd (add_context Ex.add_alpha Ex.t1 Ex.s0))) = Added "Delta" cid.
Proof.
  destruct (same_second_collision Ex.add_alpha Ex.add_delta Ex.t1 Ex.t1' Ex.s0)
    as (cid & H1 & H2 & _).
  - reflexivity.
  - repeat split.
  - exists cid. split; assumption.
Defined.

(* ------------------------------------------------------------------ *)
(** ** Update *)

Section UpdateFacts.

Lemma update_found cid p now s c :
  get_context cid s = Some c ->
  update_context cid p now s =
  (Updated (title (patched p now c)),
   save_contexts
     (mkState (dict_set cid (patched p now c) (contexts s))
        (patched_default p c (default_metadata s)) (context_file s))).
Proof. intros H. unfold update_context. now rewrite H. Qed.

Lemma get_context_update_same cid p now s c :
  get_context cid s = Some c ->
  get_context cid (snd (update_context cid p now s)) = Some (patched p now c).
Proof.
  intros H. rewrite (update_found _ _ _ _ _ H). unfold get_context. simpl.
  apply dict_get_set_same.
Qed.

Lemma get_context_update_other cid p now s k :
  k <> cid ->
  get_context k (snd (update_context cid p now s)) = get_context k s.
Proof.
  intros Hk. unfold update_context.
  destruct (get_context cid s) as [c|] eqn:E; [|reflexivity].
  unfold get_context. simpl. now apply dict_get_set_other.
Qed.

Lemma update_missing_unchanged cid p now s :
  get_context cid s = None -> snd (update_context cid p now s) = s.
Proof. intros H. unfold update_context. now rewrite H. Qed.

(** X21. The frame of [update_context]: another record is the same object
    with the same attributes; what its [metadata] denotes is unchanged
    as well unless both it and the updated record refer to the shared
    default dictionary and the update provides metadata. *)
Lemma update_frame cid p now s k c :
  k <> cid -> get_context k s = Some c ->
  get_context k (snd (update_context cid p now s)) = Some c /\
  (metadata c <> SharedDefault \/ p_metadata p = None \/
   (exists c0, get_context cid s = Some c0 /\ metadata c0 <> SharedDefault) ->
   snapshot (default_metadata (snd (update_context cid p now s))) c
   = snapshot (default_metadata s) c).
Proof.
  intros Hk Hc. split.
  - now rewrite get_context_update_other.
  - intros H. unfold update_context.
    destruct (get_context cid s) as [c0|] eqn:E; [|reflexivity].
    simpl. unfold snapshot, metadata_of, patched_default.
    destruct (metadata c) eqn:Em; [|reflexivity].
    destruct H as [H | [H | (c1 & H1 & H2)]].
    + congruence.
    + now rewrite H.
    + injection H1 as <-. destruct (p_metadata p); [|reflexivity].
      destruct (metadata c0); [congruence | reflexivity].
Qed.

End UpdateFacts.

(** C4. [update_context] on an ID that the store does not hold answers
    not-found and changes nothing: neither the mapping (so not its
    size), nor any record, nor the file. *)
Theorem update_missing_id (cid : string) (p : Patch) (now : datetime)
  (s : State) :
  get_context cid s = None ->
  update_context cid p now s = (NotFound cid, s).
Proof. intros H. unfold update_context. now rewrite H. Qed.

Lemma update_missing_id_witness :
  update_context "task_19990101_000000" (metadata_only Ex.kv) Ex.t3 Ex.s2
  = (NotFound "task_19990101_000000", Ex.s2).
Proof.
  apply (update_missing_id "task_19990101_000000" (metadata_only Ex.kv) Ex.t3 Ex.s2).
  reflexivity.
Defined.

(** C5. [update_context] with [metadata] only merges key by key into the
    metadata of the record: a key of the update gets the update's value,
    any other key keeps the value it had (or stays absent), and of the
    other fields only [updated_at] changes. *)
Theorem update_metadata_merges (cid : string) (m : dict json) (now : datetime)
  (s : State) (c : ContextItem) :
  get_context cid s = Some c ->
  dict_wf m ->
  let s' := snd (update_context cid (metadata_only m) now s) in
  exists c',
    get_context cid s' = Some c' /\
    (forall k v, dict_get k m = Some v ->
       dict_get k (metadata_of (default_metadata s') c') = Some v) /\
    (forall k, dict_get k m = None ->
       dict_get k (metadata_of (default_metadata s') c')
       = dict_get k (metadata_of (default_metadata s) c)) /\
    id c' = id c /\ type c' = type c /\ title c' = title c /\
    content c' = content c /\ priority c' = priority c /\
    created_at c' = created_at c /\ tags c' = tags c /\
    connections c' = connections c /\
    updated_at c' = now.
Proof.
  intros Hc Hm s'. exists (patched (metadata_only m) now c).
  split; [now apply get_context_update_same|].
  assert (Hmeta : metadata_of (default_metadata s') (patched (metadata_only m) now c)
                  = dict_update (metadata_of (default_metadata s) c) m).
  { unfold s'. rewrite (update_found _ _ _ _ _ Hc). simpl.
    unfold metadata_of, patched_default. simpl. now destruct (metadata c). }
  rewrite Hmeta.
  split; [intros k v Hk; now apply dict_get_update_present|].
  split; [intros k Hk; now apply dict_get_update_absent|].
  repeat split.
Qed.

Lemma update_metadata_merges_witness :
  exists c',
    get_context "decision_20261103_171045"
      (snd (update_context "decision_20261103_171045" (metadata_only Ex.kv)
              Ex.t4 Ex.s4)) = Some c' /\
    updated_at c' = Ex.t4.
Proof.
  destruct (update_metadata_merges "decision_20261103_171045" Ex.kv Ex.t4 Ex.s4
              (new_context_item Ex.add_gamma Ex.t3))
    as (c' & H1 & _ & _ & _ & _ & _ & _ & _ & _ & _ & _ & H2).
  - reflexivity.
  - repeat constructor. simpl. tauto.
  - exists c'. split; assumption.
Defined.

(* ------------------------------------------------------------------ *)
(** ** Timestamps along a run *)

Section RunFacts.

Lemma stamped_before_mono t u s :
  datetime_le t u -> stamped_before t s -> stamped_before u s.
Proof.
  intros Htu H k c Hc. destruct (H k c Hc) as [H1 H2]. split; [assumption|].
  unfold datetime_le in *. eapply datetime_leb_trans; eassumption.
Qed.

Lemma step_stamped t s o :
  stamped_before t s -> datetime_le t (op_time o) ->
  stamped_before (op_time o) (step s o).
Proof.
  intros Hs Ht. destruct o as [a now | cid p now]; cbn [step op_time] in *.
  - intros k c Hc.
    destruct (String.eqb k (id (new_context_item a now))) eqn:E.
    + apply String.eqb_eq in E. subst k. rewrite get_context_add in Hc.
      injection Hc as <-. simpl. split; apply datetime_leb_refl.
    + apply String.eqb_neq in E. rewrite get_context_add_other in Hc by assumption.
      exact (stamped_before_mono _ _ _ Ht Hs k c Hc).
  - intros k c Hc.
    destruct (String.eqb k cid) eqn:E.
    + apply String.eqb_eq in E. subst k.
      destruct (get_context cid s) as [c0|] eqn:E0.
      * rewrite (get_context_update_same _ _ _ _ _ E0) in Hc. injection Hc as <-.
        simpl. destruct (Hs cid c0 E0) as [H1 H2].
        split; [|apply datetime_leb_refl].
        unfold datetime_le in *.
        eapply datetime_leb_trans; [exact H1|].
        eapply datetime_leb_trans; eassumption.
      * rewrite update_missing_unchanged in Hc by assumption.
        exact (stamped_before_mono _ _ _ Ht Hs cid c Hc).
    + apply String.eqb_neq in E. rewrite get_context_update_other in Hc by assumption.
      exact (stamped_before_mono _ _ _ Ht Hs k c Hc).
Qed.

Lemma run_stamped ops : forall t s,
  stamped_before t s -> nondecreasing (t :: map op_time ops) = true ->
  exists u, stamped_before u (run ops s).
Proof.
  induction ops as [|o ops IH]; intros t s Hs Hm.
  - now exists t.
  - change (nondecreasing (t :: map op_time (o :: ops)))
      with (datetime_leb t (op_time o) && nondecreasing (op_time o :: map op_time ops))
      in Hm.
    apply andb_true_iff in Hm. destruct Hm as [H1 H2].
    simpl. apply (IH (op_time o)); [|assumption].
    now apply (step_stamped t).
Qed.

End RunFacts.

(** C7, as the code has it. Along any run of add and update calls that
    starts from an empty store, with clock readings that never go back,
    every record of the store has [updated_at >= created_at]. One call never changes the
    [id] or the [created_at] of a record that the store holds: an update
    keeps both on every record, an add leaves every record under another
    ID as it is (under its own ID it stores the newly created record). *)
Theorem timestamps_invariant (ops : list Op) (s0 : State) :
  contexts s0 = [] ->
  clock_monotone ops = true ->
  timestamps_ordered (run ops s0) /\
  (forall s cid p now k c,
      get_context k s = Some c ->
      exists c', get_context k (snd (update_context cid p now s)) = Some c' /\
                 id c' = id c /\ created_at c' = created_at c) /\
  (forall s a now k c,
      get_context k s = Some c ->
      k <> id (new_context_item a now) ->
      get_context k (snd (add_context a now s)) = Some c).
Proof.
  intros Hempty Hmono. split; [|split].
  - assert (Hex : exists u, stamped_before u (run ops s0)).
    { destruct ops as [|o ops].
      - exists Ex.t1. intros k c Hc. unfold get_context in Hc. simpl in Hc.
        rewrite Hempty in Hc. discriminate.
      - apply (run_stamped (o :: ops) (op_time o)).
        + intros k c Hc. unfold get_context in Hc. rewrite Hempty in Hc. discriminate.
        + unfold clock_monotone in Hmono.
          change (nondecreasing (op_time o :: map op_time (o :: ops)))
            with (datetime_leb (op_time o) (op_time o) &&
                  nondecreasing (map op_time (o :: ops))).
          now rewrite datetime_leb_refl. }
    destruct Hex as [u Hu]. intros k c Hc. exact (proj1 (Hu k c Hc)).
  - intros s cid p now k c Hc.
    destruct (String.eqb k cid) eqn:E.
    + apply String.eqb_eq in E. subst k.
      exists (patched p now c). split; [now apply get_context_update_same|].
      split; reflexivity.
    + apply String.eqb_neq in E. exists c.
      rewrite get_context_update_other by assumption. auto.
  - intros s a now k c Hc Hk. now rewrite get_context_add_other.
Qed.

Lemma timestamps_invariant_witness :
  timestamps_ordered
    (run [OpAdd Ex.add_alpha Ex.t1; OpAdd Ex.add_beta Ex.t2;
          OpUpdate "conversation_20261103_170800" (metadata_only Ex.kv) Ex.t3]
       Ex.s0).
Proof.
  apply (timestamps_invariant
           [OpAdd Ex.add_alpha Ex.t1; OpAdd Ex.add_beta Ex.t2;
            OpUpdate "conversation_20261103_170800" (metadata_only Ex.kv) Ex.t3]
           Ex.s0).
  - reflexivity.
  - reflexivity.
Defined.

(** Against C7 as the specification words it: both timestamps are
    readings of the wall clock, which can be set back. A record created
    at 17:09:30 and updated when the clock reads 17:08:00 has its
    [updated_at] before its [created_at]. *)
Lemma clock_set_back_breaks_order :
  ~ timestamps_ordered
      (tool_run [OpAdd Ex.add_beta Ex.t2;
                 OpUpdate "task_20261103_170930" empty_patch Ex.t1]
         (startup NoFile)).
Proof.
  intros H.
  specialize (H "task_20261103_170930" _ eq_refl).
  discriminate H.
Qed.

(* ------------------------------------------------------------------ *)
(** ** The stores that a process can reach are well formed *)

Section Reachable.

Lemma get_context_item_ok s k c :
  store_ok s -> get_context k s = Some c -> item_ok c.
Proof.
  intros [_ Hok] Hc. rewrite Forall_forall in Hok. apply Hok.
  unfold get_context in Hc. apply dict_get_Some_in in Hc.
  unfold dict_values. apply in_map_iff. now exists (k, c).
Qed.

Lemma step_store_ok s o :
  store_ok s -> datetime_valid (op_time o) = true -> store_ok (step s o).
Proof.
  intros Hs Hv. pose proof Hs as [Hwf Hok].
  destruct o as [a now | cid p now]; cbn [step op_time] in *.
  - split.
    + rewrite contexts_add. now apply dict_set_wf.
    + rewrite contexts_add. apply Forall_dict_set; [now split | assumption].
  - unfold update_context. destruct (get_context cid s) as [c|] eqn:E; [|exact Hs].
    destruct (get_context_item_ok s cid c Hs E) as [Hc _].
    split; simpl.
    + now apply dict_set_wf.
    + apply Forall_dict_set; [now split | assumption].
Qed.

Lemma run_store_ok ops : forall s,
  store_ok s -> forallb (fun o => datetime_valid (op_time o)) ops = true ->
  store_ok (run ops s).
Proof.
  induction ops as [|o ops IH]; intros s Hs Hv; simpl in *; [assumption|].
  apply andb_true_iff in Hv. destruct Hv as [H1 H2].
  apply IH; [now apply step_store_ok | assumption].
Qed.

End Reachable.

(* ------------------------------------------------------------------ *)
(** ** Search *)

Section SearchFacts.

Lemma type_excluded_spec type_filter c :
  type_excluded type_filter c = false <-> (forall t, type_filter = Some t -> type c = t).
Proof.
  unfold type_excluded. destruct type_filter as [t|].
  - rewrite negb_false_iff, ContextType_eqb_eq. split.
    + intros H t' [= <-]. exact H.
    + intros H. now apply H.
  - split; [discriminate | reflexivity].
Qed.

Lemma matches_query_spec q c :
  matches_query (lower q) c = true <->
  (occurs_lowered q (title c) \/
   occurs_lowered q (content c) \/
   exists tag, In tag (tags c) /\ occurs_lowered q tag).
Proof.
  unfold matches_query.
  rewrite !orb_true_iff, !contains_lower_spec, existsb_exists.
  split.
  - intros [[H | H] | (tag & Hin & H)]; auto.
    right. right. exists tag. now rewrite <- contains_lower_spec.
  - intros [H | [H | (tag & Hin & H)]]; auto.
    right. exists tag. now rewrite contains_lower_spec.
Qed.

Lemma search_test_spec q type_filter c :
  negb (type_excluded type_filter c) && matches_query (lower q) c = true <->
  is_match q type_filter c.
Proof.
  unfold is_match.
  rewrite andb_true_iff, negb_true_iff, type_excluded_spec, matches_query_spec.
  tauto.
Qed.

End SearchFacts.

(** C6, as the code has it. [search_contexts] returns exactly the
    records of the store in which the lower-cased query is a substring
    of the lower-cased title, of the lower-cased content or of at least
    one lower-cased tag, and whose type is the filter's when one is
    given: each such record as often as the store holds it, and nothing
    else. The result is in descending order of [updated_at]. *)
Theorem search_contexts_exact (q : string) (type_filter : option ContextType)
  (s : State) :
  let res := search_contexts q type_filter s in
  (forall c, In c res <->
             In c (dict_values (contexts s)) /\ is_match q type_filter c) /\
  (exists sel : ContextItem -> bool,
      (forall c, sel c = true <-> is_match q type_filter c) /\
      Permutation res (List.filter sel (dict_values (contexts s)))) /\
  newest_first res.
Proof.
  intros res. unfold res, search_contexts. split; [|split].
  - intros c. split.
    + intros H. apply (Permutation_in _ (sorted_by_updated_desc_perm _)) in H.
      apply filter_In in H. now rewrite search_test_spec in H.
    + intros H.
      apply (Permutation_in _ (Permutation_sym (sorted_by_updated_desc_perm _))).
      apply filter_In. now rewrite search_test_spec.
  - exists (fun c => negb (type_excluded type_filter c) && matches_query (lower q) c).
    split; [intros c; apply search_test_spec | apply sorted_by_updated_desc_perm].
  - apply sorted_by_updated_desc_sorted.
Qed.

(** Against C6 as the specification words it: the comparison of
    lower-cased texts is not a comparison up to case. A record titled
    "Strasse" with a sharp s is not found by the query "STRASSE", its
    own title in capital letters, though the two have the same case
    folding. *)
Lemma search_misses_case_variant :
  occurs_caseless "STRASSE" Ex2.strasse /\
  (exists c, In c (dict_values (contexts Ex2.street)) /\
             title c = Ex2.strasse) /\
  search_contexts "STRASSE" None Ex2.street = [].
Proof.
  split; [|split].
  - exists ""%string, Ex2.strasse, ""%string. split; reflexivity.
  - eexists. split; [left; reflexivity | reflexivity].
  - reflexivity.
Qed.

(** X20. With a limit that is not negative, the tool [search_context]
    lists at most [limit] entries: the summaries of the first [limit]
    results of [search_contexts]. *)
Lemma search_context_at_most_limit q type_filter limit s entries :
  0 <= limit ->
  search_context q type_filter (Some limit) s = SearchResults q entries ->
  exists results,
    entries = map summarize results /\
    results = firstn (Z.to_nat limit) (search_contexts q type_filter s) /\
    (List.length entries <= Z.to_nat limit)%nat.
Proof.
  intros Hl. unfold search_context, slice_to. simpl with_default.
  apply Z.leb_le in Hl. rewrite Hl.
  destruct (firstn (Z.to_nat limit) (search_contexts q type_filter s))
    as [|c r] eqn:E; [discriminate|].
  intros [= <-]. exists (c :: r). split; [reflexivity|]. split; [reflexivity|].
  pose proof (firstn_le_length (Z.to_nat limit)
                (search_contexts q type_filter s)) as Hle.
  rewrite E in Hle. simpl in *. now rewrite length_map.
Qed.

(* ------------------------------------------------------------------ *)
(** ** Statistics *)

Section StatsFacts.

Lemma count_values_acc k keys : forall acc,
  dict_get k
    (fold_left
       (fun counts k =>
          dict_set k (with_default (dict_get k counts) 0%nat + 1)%nat counts)
       keys acc)
  = match count_occ string_dec keys k with
    | O => dict_get k acc
    | S n => Some (with_default (dict_get k acc) 0%nat + S n)%nat
    end.
Proof.
  induction keys as [|x keys IH]; intros acc; simpl; [reflexivity|].
  rewrite IH. destruct (string_dec x k) as [->|Hne].
  - rewrite dict_get_set_same. simpl.
    destruct (count_occ string_dec keys k); f_equal; lia.
  - rewrite dict_get_set_other by congruence. reflexivity.
Qed.

Lemma count_values_get keys k :
  dict_get k (count_values keys) = positive (count_occ string_dec keys k).
Proof.
  unfold count_values. rewrite count_values_acc. simpl.
  now destruct (count_occ string_dec keys k).
Qed.

Lemma count_values_wf keys : dict_wf (count_values keys).
Proof.
  unfold count_values.
  assert (H : forall acc : dict nat, dict_wf acc ->
    dict_wf (fold_left
      (fun counts k =>
         dict_set k (with_default (dict_get k counts) 0%nat + 1)%nat counts)
      keys acc)).
  { induction keys as [|x keys IH]; intros acc Hacc; simpl; auto.
    apply IH. now apply dict_set_wf. }
  apply H. constructor.
Qed.

Lemma insert_item_perm x l : Permutation (insert_item x l) (x :: l).
Proof.
  induction l as [|y l IH]; simpl; auto.
  destruct (String.leb (fst x) (fst y)); auto.
  rewrite IH. apply perm_swap.
Qed.

Lemma sorted_items_perm d : Permutation (sorted_items d) d.
Proof.
  induction d as [|x d IH]; simpl; auto.
  rewrite insert_item_perm. now constructor.
Qed.

Lemma dict_get_perm {V : Type} (d d' : dict V) k :
  dict_wf d -> Permutation d d' -> dict_get k d' = dict_get k d.
Proof.
  intros Hwf Hp.
  assert (Hwf' : dict_wf d').
  { unfold dict_wf, dict_keys.
    eapply Permutation_NoDup; [apply Permutation_map; exact Hp | exact Hwf]. }
  destruct (dict_get k d) as [v|] eqn:E.
  - apply dict_in_get; [assumption|].
    eapply Permutation_in; [exact Hp|]. now apply dict_get_Some_in.
  - apply dict_get_None_notin. apply dict_get_None_notin in E.
    intros Hin. apply E. unfold dict_keys in *.
    eapply Permutation_in; [apply Permutation_map, Permutation_sym; exact Hp|].
    exact Hin.
Qed.

Lemma sorted_counts_get keys k :
  dict_get k (sorted_items (count_values keys))
  = positive (count_occ string_dec keys k).
Proof.
  rewrite (dict_get_perm (count_values keys)).
  - apply count_values_get.
  - apply count_values_wf.
  - apply Permutation_sym, sorted_items_perm.
Qed.

Lemma count_occ_types t l :
  count_occ string_dec (map (fun c => ContextType_value (type c)) l)
    (ContextType_value t) = count_type t l.
Proof.
  unfold count_type. induction l as [|c l IH]; simpl; [reflexivity|].
  destruct (string_dec (ContextType_value (type c)) (ContextType_value t)) as [E|E].
  - unfold ContextType_eqb. rewrite E, String.eqb_refl. simpl. now rewrite IH.
  - unfold ContextType_eqb. apply String.eqb_neq in E. now rewrite E.
Qed.

Lemma count_occ_priorities p l :
  count_occ string_dec (map (fun c => Priority_value (priority c)) l)
    (Priority_value p) = count_priority p l.
Proof.
  unfold count_priority. induction l as [|c l IH]; simpl; [reflexivity|].
  destruct (string_dec (Priority_value (priority c)) (Priority_value p)) as [E|E].
  - unfold Priority_eqb. rewrite E, String.eqb_refl. simpl. now rewrite IH.
  - unfold Priority_eqb. apply String.eqb_neq in E. now rewrite E.
Qed.

Lemma count_occ_absent {A : Type} (f : A -> string) (l : list A) k :
  (forall a, f a <> k) -> count_occ string_dec (map f l) k = 0%nat.
Proof.
  intros H. induction l as [|a l IH]; simpl; [reflexivity|].
  destruct (string_dec (f a) k) as [E|E]; [now apply H in E | exact IH].
Qed.

Lemma get_context_stats_nonempty s :
  contexts s <> [] ->
  get_context_stats s =
  let contexts := dict_values (contexts s) in
  Statistics
    (mkStats (List.length contexts)
       (sorted_items
          (count_values (map (fun c => ContextType_value (type c)) contexts)))
       (sorted_items
          (count_values (map (fun c => Priority_value (priority c)) contexts)))
       (map (fun c => (title c, strftime_minute (updated_at c)))
          (firstn 3 (sorted_by_updated_desc contexts)))).
Proof.
  intros H. unfold get_context_stats.
  destruct (contexts s) as [|kc d]; [congruence | reflexivity].
Qed.

End StatsFacts.

(** C9, as the code has it. On an empty store [get_context_stats]
    answers that the store is empty. On any other store it reports the
    number of records, for each type and each priority the number of
    records that have it (an entry only where that number is not zero,
    and no entry under any other name), and the titles and
    minute-resolution timestamps of the first three records in
    descending order of [updated_at]. The answer depends on the
    in-memory mapping alone. *)
Theorem stats_report (s : State) :
  (contexts s = [] -> get_context_stats s = StoreEmpty) /\
  (contexts s <> [] ->
   exists st,
     get_context_stats s = Statistics st /\
     total st = dict_len (contexts s) /\
     (forall t, dict_get (ContextType_value t) (by_type st)
                = positive (count_type t (dict_values (contexts s)))) /\
     (forall k, (forall t, ContextType_value t <> k) ->
                dict_get k (by_type st) = None) /\
     (forall p, dict_get (Priority_value p) (by_priority st)
                = positive (count_priority p (dict_values (contexts s)))) /\
     (forall k, (forall p, Priority_value p <> k) ->
                dict_get k (by_priority st) = None) /\
     (exists L, Permutation L (dict_values (contexts s)) /\ newest_first L /\
                most_recent st
                = map (fun c => (title c, strftime_minute (updated_at c)))
                      (firstn 3 L))) /\
  (forall s', contexts s' = contexts s ->
              get_context_stats s' = get_context_stats s).
Proof.
  split; [|split].
  - intros H. unfold get_context_stats. now rewrite H.
  - intros Hne. rewrite (get_context_stats_nonempty s Hne).
    eexists. split; [reflexivity|]. cbn [total by_type by_priority most_recent].
    split; [unfold dict_len, dict_values; now rewrite length_map|].
    split; [intros t; now rewrite sorted_counts_get, count_occ_types|].
    split; [intros k Hk; now rewrite sorted_counts_get, count_occ_absent|].
    split; [intros p; now rewrite sorted_counts_get, count_occ_priorities|].
    split; [intros k Hk; now rewrite sorted_counts_get, count_occ_absent|].
    exists (sorted_by_updated_desc (dict_values (contexts s))).
    split; [apply sorted_by_updated_desc_perm|].
    split; [apply sorted_by_updated_desc_sorted | reflexivity].
  - intros s' H. unfold get_context_stats. now rewrite H.
Qed.

Lemma stats_report_witness :
  exists st, get_context_stats Ex.s4 = Statistics st /\ total st = 3%nat.
Proof.
  destruct (proj1 (proj2 (stats_report Ex.s4))) as (st & H1 & H2 & _).
  - discriminate.
  - exists st. split; [exact H1 | exact H2].
Defined.

(** The empty store, against C9 as the specification words it: no count
    is returned there. *)
Lemma stats_empty_store_no_counts :
  contexts Ex.s0 = [] /\
  get_context_stats Ex.s0 = StoreEmpty /\
  ~ (exists st, get_context_stats Ex.s0 = Statistics st).
Proof.
  split; [reflexivity|]. split; [reflexivity|].
  intros [st H]. discriminate H.
Qed.

(* ------------------------------------------------------------------ *)
(** ** Identifiers *)

Section IdFacts.

Lemma length_zpad w : forall n, List.length (zpad w n) = w.
Proof.
  induction w as [|w IH]; intros n; simpl; [reflexivity|].
  rewrite length_app, IH. simpl. lia.
Qed.

Lemma zpad_inj w n m :
  0 <= n < 10 ^ Z.of_nat w -> 0 <= m < 10 ^ Z.of_nat w ->
  zpad w n = zpad w m -> n = m.
Proof.
  intros Hn Hm H.
  pose proof (read_digits_zpad w n 0 [] Hn) as H1.
  pose proof (read_digits_zpad w m 0 [] Hm) as H2.
  rewrite H in H1. rewrite H1 in H2. injection H2 as H2. lia.
Qed.

Lemma app_same_length {A : Type} (a a' b b' : list A) :
  List.length a = List.length a' -> a ++ b = a' ++ b' -> a = a' /\ b = b'.
Proof.
  revert a'. induction a as [|x a IH]; intros [|x' a'] Hl H; simpl in *;
    try discriminate; auto.
  injection H as -> H. injection Hl as Hl.
  destruct (IH a' Hl H) as [-> ->]. auto.
Qed.

Lemma string_of_list_ascii_inj l l' :
  string_of_list_ascii l = string_of_list_ascii l' -> l = l'.
Proof.
  intros H. apply (f_equal list_ascii_of_string) in H.
  now rewrite !list_ascii_of_string_of_list_ascii in H.
Qed.

Lemma strftime_compact_inj t u :
  datetime_valid t = true -> datetime_valid u = true ->
  strftime_compact t = strftime_compact u -> same_second t u.
Proof.
  intros Ht Hu H.
  pose proof (datetime_valid_spec t Ht) as (Hy & Hm & Hd & Hh & Hmi & Hs & _).
  pose proof (datetime_valid_spec u Hu) as (Hy' & Hm' & Hd' & Hh' & Hmi' & Hs' & _).
  unfold strftime_compact in H. apply string_of_list_ascii_inj in H.
  apply app_same_length in H; [|now rewrite !length_zpad]. destruct H as [E1 H].
  apply app_same_length in H; [|now rewrite !length_zpad]. destruct H as [E2 H].
  apply app_same_length in H; [|now rewrite !length_zpad]. destruct H as [E3 H].
  apply app_same_length in H; [|reflexivity]. destruct H as [_ H].
  apply app_same_length in H; [|now rewrite !length_zpad]. destruct H as [E4 H].
  apply app_same_length in H; [|now rewrite !length_zpad]. destruct H as [E5 E6].
  unfold same_second.
  repeat split; eapply zpad_inj; try eassumption; simpl; lia.
Qed.

Lemma string_app_inv_head (p a b : string) :
  (p ++ a)%string = (p ++ b)%string -> a = b.
Proof. induction p as [|c p IH]; simpl; intros H; [assumption|]. injection H as H. auto. Qed.

End IdFacts.

(** X1. Two creations get the same ID only when they have the same type
    and fall within the same second, and then they always do. *)
Theorem context_id_collides_iff (t1 t2 : ContextType) (now1 now2 : datetime) :
  datetime_valid now1 = true -> datetime_valid now2 = true ->
  (make_context_id t1 now1 = make_context_id t2 now2 <->
   t1 = t2 /\ same_second now1 now2).
Proof.
  intros H1 H2. split.
  - intros H. unfold make_context_id in H.
    assert (Ht : t1 = t2).
    { destruct t1, t2; simpl in H; try reflexivity; discriminate. }
    subst t2. split; [reflexivity|].
    apply string_app_inv_head in H. apply string_app_inv_head in H.
    now apply strftime_compact_inj.
  - intros [-> Hs]. unfold make_context_id.
    now rewrite (same_second_strftime now1 now2 Hs).
Qed.

Lemma context_id_collides_iff_witness :
  make_context_id TASK Ex.t1 = make_context_id TASK Ex.t1' /\
  make_context_id TASK Ex.t1 <> make_context_id TASK Ex.t2.
Proof.
  split.
  - apply (context_id_collides_iff TASK TASK Ex.t1 Ex.t1'); try reflexivity.
    repeat split.
  - intros H.
    apply (context_id_collides_iff TASK TASK Ex.t1 Ex.t2) in H; try reflexivity.
    destruct H as (_ & _ & _ & _ & _ & H & _). discriminate H.
Defined.

Section IdInvariant.

Lemma ids_from_creation_step s o :
  ids_from_creation s -> ids_from_creation (step s o).
Proof.
  intros Hs. destruct o as [a now | cid p now]; cbn [step]; intros k c Hc.
  - destruct (String.eqb k (id (new_context_item a now))) eqn:E.
    + apply String.eqb_eq in E. subst k. rewrite get_context_add in Hc.
      injection Hc as <-. split; reflexivity.
    + apply String.eqb_neq in E.
      rewrite get_context_add_other in Hc by assumption. now apply Hs.
  - destruct (String.eqb k cid) eqn:E.
    + apply String.eqb_eq in E. subst k.
      destruct (get_context cid s) as [c0|] eqn:E0.
      * rewrite (get_context_update_same _ _ _ _ _ E0) in Hc. injection Hc as <-.
        exact (Hs cid c0 E0).
      * rewrite update_missing_unchanged in Hc by assumption. now apply Hs.
    + apply String.eqb_neq in E.
      rewrite get_context_update_other in Hc by assumption. now apply Hs.
Qed.

End IdInvariant.

(** X2. Along any run of add and update calls, every record stays
    stored under its own [id], and that [id] stays the one formed from
    the record's type and creation time. *)
Theorem ids_from_creation_run (ops : list Op) (s : State) :
  ids_from_creation s -> ids_from_creation (run ops s).
Proof.
  revert s. induction ops as [|o ops IH]; intros s Hs; simpl; [assumption|].
  apply IH. now apply ids_from_creation_step.
Qed.

Lemma ids_from_creation_run_witness : ids_from_creation (run Ex2.run3 Ex.s0).
Proof.
  apply (ids_from_creation_run Ex2.run3 Ex.s0).
  intros k c Hc. discriminate Hc.
Defined.

Section GrowthFacts.

Lemma step_keeps_keys s o k :
  get_context k s <> None -> get_context k (step s o) <> None.
Proof.
  intros Hk. destruct o as [a now | cid p now]; cbn [step].
  - destruct (String.eqb k (id (new_context_item a now))) eqn:E.
    + apply String.eqb_eq in E. subst k. rewrite get_context_add. discriminate.
    + apply String.eqb_neq in E. now rewrite get_context_add_other.
  - destruct (String.eqb k cid) eqn:E.
    + apply String.eqb_eq in E. subst k.
      destruct (get_context cid s) as [c0|] eqn:E0; [|congruence].
      rewrite (get_context_update_same _ _ _ _ _ E0). discriminate.
    + apply String.eqb_neq in E. now rewrite get_context_update_other.
Qed.

Lemma step_len s o :
  (dict_len (contexts s) <= dict_len (contexts (step s o))
   <= dict_len (contexts s) + 1)%nat.
Proof.
  destruct o as [a now | cid p now]; cbn [step].
  - rewrite contexts_add.
    destruct (dict_get (id (new_context_item a now)) (contexts s)) eqn:E.
    + rewrite dict_len_set_present; [lia | congruence].
    + rewrite dict_len_set_absent; [lia | exact E].
  - unfold update_context. destruct (get_context cid s) as [c|] eqn:E; simpl; [|lia].
    rewrite dict_len_set_present; [lia | unfold get_context in E; congruence].
Qed.

End GrowthFacts.

(** X3. No call removes a record: an ID that the store holds is still
    held after any run of add and update calls, and the number of
    records grows by at most one per call. *)
Theorem records_are_never_removed (ops : list Op) (s : State) :
  (forall k, get_context k s <> None -> get_context k (run ops s) <> None) /\
  (dict_len (contexts s) <= dict_len (contexts (run ops s))
   <= dict_len (contexts s) + List.length ops)%nat.
Proof.
  revert s. induction ops as [|o ops IH]; intros s; simpl.
  - split; [auto | lia].
  - destruct (IH (step s o)) as [H1 H2]. split.
    + intros k Hk. apply H1. now apply step_keeps_keys.
    + pose proof (step_len s o). lia.
Qed.

(* ------------------------------------------------------------------ *)
(** ** Malformed payloads *)

Section MalformedFacts.

Lemma as_str_Some j v : as_str j = Some v -> j = JStr v.
Proof. destruct j; simpl; intros [= <-]; reflexivity. Qed.

(** What a payload that [from_dict] reads is made of. *)
Lemma from_dict_Some_fields o c :
  from_dict (JObj o) = Some c ->
  dict_len o = List.length field_names /\
  forallb (has_field o) field_names = true /\
  holds_string o "created_at" = true /\
  holds_string o "updated_at" = true /\
  holds_type o = true /\
  holds_priority o = true.
Proof.
  intros H. unfold from_dict, subscript in H. cbn [as_obj] in H.
  repeat match type of H with
         | match ?e with _ => _ end = _ =>
             let E := fresh "E" in destruct e eqn:E; try discriminate
         | (if ?e then _ else _) = _ =>
             let E := fresh "E" in destruct e eqn:E; try discriminate
         end.
  repeat match goal with
         | E : as_str _ = Some _ |- _ => apply as_str_Some in E; subst
         end.
  match goal with
  | E : negb (Nat.eqb _ _) = false |- _ =>
      apply negb_false_iff, Nat.eqb_eq in E; split; [exact E|]
  end.
  unfold holds_string, holds_type, holds_priority.
  cbn [forallb field_names]. unfold has_field.
  repeat match goal with
         | E : dict_get _ o = Some _ |- _ => rewrite E; clear E
         end.
  repeat match goal with
         | E : _ = Some _ |- _ => rewrite E; clear E
         end.
  repeat split.
Qed.

Lemma has_field_In o name : has_field o name = true -> In name (dict_keys o).
Proof.
  unfold has_field. intros H.
  destruct (dict_get name o) eqn:E; [|discriminate].
  destruct (in_dec string_dec name (dict_keys o)) as [Hin | Hni]; [assumption|].
  apply dict_get_None_notin in Hni. congruence.
Qed.

Lemma only_field_names o :
  dict_len o = List.length field_names ->
  forallb (has_field o) field_names = true ->
  forallb is_field_name (dict_keys o) = true.
Proof.
  intros Hlen Hall. apply forallb_forall. intros k Hk.
  destruct (is_field_name k) eqn:E; [reflexivity | exfalso].
  assert (Hni : ~ In k field_names).
  { intros Hin. unfold is_field_name in E.
    assert (existsb (String.eqb k) field_names = true)
      by (apply existsb_exists; exists k; split; [assumption | apply String.eqb_refl]).
    congruence. }
  assert (Hnd : NoDup (k :: field_names)).
  { constructor; [exact Hni|].
    repeat constructor; simpl; intuition discriminate. }
  assert (Hincl : incl (k :: field_names) (dict_keys o)).
  { intros x [<- | Hx]; [assumption|].
    apply has_field_In. rewrite forallb_forall in Hall. now apply Hall. }
  pose proof (NoDup_incl_length Hnd Hincl) as Hle.
  unfold dict_keys in Hle. rewrite length_map in Hle.
  unfold dict_len in Hlen. simpl in Hle, Hlen. lia.
Qed.

(** A malformed payload is not read. *)
Lemma malformed_from_dict data : malformed data = true -> from_dict data = None.
Proof.
  destruct data as [| | | | |o]; try reflexivity.
  intros Hm. destruct (from_dict (JObj o)) as [c|] eqn:E; [|reflexivity].
  exfalso.
  destruct (from_dict_Some_fields o c E) as (H1 & H2 & H3 & H4 & H5 & H6).
  unfold malformed in Hm.
  rewrite H2, (only_field_names o H1 H2), H3, H4, H5, H6 in Hm.
  discriminate Hm.
Qed.

(** What [to_dict] writes is not malformed. *)
Lemma to_dict_not_malformed dflt c : malformed (to_dict dflt c) = false.
Proof.
  unfold to_dict, malformed, holds_type, holds_priority. simpl.
  now rewrite ContextType_of_value_value, Priority_of_value_value.
Qed.

End MalformedFacts.

(* ------------------------------------------------------------------ *)
(** ** Restarting the process *)

Section RestartFacts.


Lemma init_default dflt f : default_metadata (ContextManager_init dflt f) = dflt.
Proof.
  unfold ContextManager_init, load_contexts. simpl.
  destruct f as [| |j]; try reflexivity.
  destruct (let* o := as_obj j in load_items o); reflexivity.
Qed.

Lemma from_dict_own data c : from_dict data = Some c -> exists m, metadata c = Own m.
Proof.
  unfold from_dict.
  repeat match goal with
         | |- match ?e with _ => _ end = _ -> _ => destruct e; try discriminate
         end.
  intros [= <-]. simpl. eauto.
Qed.

Lemma load_items_fails_from_none (l : dict json) :
  fold_left
    (fun acc kv =>
       let* d := acc in
       let* c := from_dict (snd kv) in
       Some (dict_set (fst kv) c d))
    l None = None.
Proof. induction l as [|x l IH]; simpl; auto. Qed.

Lemma load_items_own data : forall acc d,
  Forall (fun c => exists m, metadata c = Own m) (dict_values acc) ->
  fold_left
    (fun acc kv =>
       let* d := acc in
       let* c := from_dict (snd kv) in
       Some (dict_set (fst kv) c d))
    data (Some acc) = Some d ->
  Forall (fun c => exists m, metadata c = Own m) (dict_values d).
Proof.
  induction data as [|[k j] data IH]; simpl; intros acc d Hacc H.
  - injection H as <-. assumption.
  - destruct (from_dict j) as [c|] eqn:E.
    + apply IH in H; [assumption|].
      apply Forall_dict_set; [eapply from_dict_own; eassumption | assumption].
    + rewrite load_items_fails_from_none in H. discriminate.
Qed.

Lemma init_all_own dflt f :
  Forall (fun c => exists m, metadata c = Own m)
         (dict_values (contexts (ContextManager_init dflt f))).
Proof.
  unfold ContextManager_init, load_contexts. simpl.
  destruct f as [| |j]; try constructor.
  destruct j; simpl; try constructor.
  destruct (load_items members) as [d|] eqn:E; simpl; [|constructor].
  unfold load_items in E. apply load_items_own in E; [assumption | constructor].
Qed.

Lemma snapshot_own dflt c m : metadata c = Own m -> snapshot dflt c = c.
Proof. destruct c; simpl. intros ->. reflexivity. Qed.


Lemma init_of_saved s dflt :
  store_ok s ->
  contexts (ContextManager_init dflt (context_file (save_contexts s)))
  = store_snapshot s.
Proof.
  intros [Hwf Hok].
  unfold ContextManager_init, load_contexts, save_contexts. simpl.
  unfold load_items. rewrite load_items_acc by assumption.
  rewrite dict_update_app_fresh; [reflexivity|].
  simpl. unfold dict_wf. fold (store_snapshot s).
  now rewrite store_snapshot_keys.
Qed.




End RestartFacts.



(** X5. Records loaded from the file own their metadata: in a store
    that was just built from the file, a successful or failed update of
    one ID leaves every record under another ID unchanged by value, its
    metadata included. *)
Theorem update_after_restart_is_local (dflt : dict json) (f : File)
  (cid : string) (p : Patch) (now : datetime) (k : string) (c : ContextItem) :
  k <> cid ->
  get_context k (ContextManager_init dflt f) = Some c ->
  let s' := snd (update_context cid p now (ContextManager_init dflt f)) in
  get_context k s' = Some c /\
  snapshot (default_metadata s') c = snapshot dflt c.
Proof.
  intros Hk Hc s'. split.
  - unfold s'. now rewrite get_context_update_other.
  - pose proof (init_all_own dflt f) as Hown.
    rewrite Forall_forall in Hown.
    destruct (Hown c) as [m Hm].
    { unfold get_context in Hc. apply dict_get_Some_in in Hc.
      unfold dict_values. apply in_map_iff. now exists (k, c). }
    now rewrite !(snapshot_own _ _ _ Hm).
Qed.

Lemma update_after_restart_is_local_witness :
  get_context "task_20261103_170930"
    (snd (update_context "conversation_20261103_170800" (metadata_only Ex.kv)
            Ex.t4 Ex2.restarted))
  = get_context "task_20261103_170930" Ex2.restarted.
Proof.
  destruct (update_after_restart_is_local [] (context_file Ex.s3)
              "conversation_20261103_170800" (metadata_only Ex.kv) Ex.t4
              "task_20261103_170930"
              (snapshot Ex.kv (new_context_item Ex.add_beta Ex.t2)))
    as [H _].
  - discriminate.
  - reflexivity.
  - exact H.
Defined.

(* ------------------------------------------------------------------ *)
(** ** Loading *)

Section LoadFacts.

Lemma load_items_all data : forall acc,
  Forall (fun kv => from_dict (snd kv) <> None) data ->
  exists l,
    fold_left
      (fun acc kv =>
         let* d := acc in
         let* c := from_dict (snd kv) in
         Some (dict_set (fst kv) c d))
      data (Some acc) = Some (dict_update acc l) /\
    Forall2 (fun kv kc => fst kc = fst kv /\ from_dict (snd kv) = Some (snd kc))
            data l.
Proof.
  induction data as [|[k j] data IH]; intros acc H; simpl.
  - exists []. split; [reflexivity | constructor].
  - inversion H as [|? ? Hj Hd]; subst. simpl in Hj.
    destruct (from_dict j) as [c|] eqn:E; [|congruence].
    destruct (IH (dict_set k c acc) Hd) as (l & Hl & Hf).
    exists ((k, c) :: l). split; [exact Hl|].
    constructor; [split; [reflexivity | exact E] | exact Hf].
Qed.

Lemma Forall2_keys data (l : dict ContextItem) :
  Forall2 (fun kv kc => fst kc = fst kv /\ from_dict (snd kv) = Some (snd kc))
          data l ->
  dict_keys l = dict_keys data /\
  forall k, dict_get k l = (let* j := dict_get k data in from_dict j).
Proof.
  induction 1 as [|[k j] [k' c] data l [Hk Hc] Hf [IH1 IH2]]; simpl in *.
  - split; [reflexivity | intros; reflexivity].
  - subst k'. split; [now rewrite IH1|].
    intros k0. destruct (String.eqb k0 k); [now rewrite Hc | apply IH2].
Qed.

Lemma load_items_decodes o :
  Forall (fun kv => from_dict (snd kv) <> None) o ->
  exists l,
    load_items o = Some (dict_of_items l) /\
    Forall2 (fun kv kc => fst kc = fst kv /\ from_dict (snd kv) = Some (snd kc))
            o l.
Proof. intros H. exact (load_items_all o [] H). Qed.

Lemma load_items_rejects o :
  Exists (fun kv => from_dict (snd kv) = None) o -> load_items o = None.
Proof. intros H. exact (load_items_fails o (Some []) H). Qed.

Lemma init_json_obj dflt o :
  contexts (ContextManager_init dflt (JsonFile (JObj o)))
  = match load_items o with Some d => d | None => [] end.
Proof.
  unfold ContextManager_init, load_contexts. simpl.
  now destruct (load_items o).
Qed.

End LoadFacts.

(** X6. Loading is all or nothing. When [from_dict] reads every value
    of the file's object, the mapping gets exactly the keys of the file,
    in the file's order, each with its deserialized record. When one
    value is malformed (no object, a field missing or a key too many, a
    timestamp that is no string, a type or priority outside its
    enumeration), the mapping that the constructor leaves is empty. *)
Theorem load_is_all_or_nothing (dflt : dict json) (o : dict json) :
  dict_wf o ->
  let s := ContextManager_init dflt (JsonFile (JObj o)) in
  (Forall (fun kv => from_dict (snd kv) <> None) o ->
   dict_keys (contexts s) = dict_keys o /\
   forall k, get_context k s = (let* j := dict_get k o in from_dict j)) /\
  (Exists (fun kv => malformed (snd kv) = true) o -> contexts s = []).
Proof.
  intros Hwf s. split.
  - intros Hall. unfold s, get_context. rewrite init_json_obj.
    destruct (load_items_decodes o Hall) as (l & Hl & Hf).
    rewrite Hl.
    destruct (Forall2_keys o l Hf) as [Hk Hg].
    rewrite dict_of_items_wf by (unfold dict_wf; now rewrite Hk).
    auto.
  - intros Hex. unfold s. rewrite init_json_obj.
    rewrite load_items_rejects; [reflexivity|].
    eapply Exists_impl; [|exact Hex]. simpl. intros kv.
    apply malformed_from_dict.
Qed.

Lemma load_is_all_or_nothing_witness :
  dict_keys (contexts Ex2.restarted)
  = ["conversation_20261103_170800"; "task_20261103_170930"].
Proof.
  refine (proj1 (proj1 (load_is_all_or_nothing []
            [("conversation_20261103_170800",
              to_dict Ex.kv (patched (metadata_only Ex.kv) Ex.t3
                               (new_context_item Ex.add_alpha Ex.t1)));
             ("task_20261103_170930",
              to_dict Ex.kv (new_context_item Ex.add_beta Ex.t2))] _) _)).
  - repeat constructor; simpl; intuition discriminate.
  - repeat constructor; discriminate.
Defined.

(* ------------------------------------------------------------------ *)
(** ** Listings *)

Section ListingFacts.

Lemma newest_first_app l1 : forall l2,
  newest_first (l1 ++ l2) ->
  newest_first l1 /\ newest_first l2 /\ none_newer l2 l1.
Proof.
  unfold newest_first, none_newer.
  induction l1 as [|x l1 IH]; intros l2 H; simpl in *.
  - repeat split; [constructor | assumption | intros a b []].
  - inversion H as [|? ? Hs Hall]; subst.
    destruct (IH l2 Hs) as (H1 & H2 & H3).
    rewrite Forall_app in Hall. destruct Hall as [Ha1 Ha2].
    repeat split; [now constructor | assumption |].
    intros a b [<- | Ha] Hb; [|now apply H3].
    rewrite Forall_forall in Ha2. now apply Ha2.
Qed.

Lemma of_type_spec type_filter c :
  negb (type_excluded type_filter c) = true <-> of_type type_filter c.
Proof. rewrite negb_true_iff. apply type_excluded_spec. Qed.

Lemma search_contexts_In q type_filter s c :
  In c (search_contexts q type_filter s) <->
  In c (dict_values (contexts s)) /\ is_match q type_filter c.
Proof.
  unfold search_contexts. split.
  - intros H. apply (Permutation_in _ (sorted_by_updated_desc_perm _)) in H.
    apply filter_In in H. now rewrite search_test_spec in H.
  - intros H.
    apply (Permutation_in _ (Permutation_sym (sorted_by_updated_desc_perm _))).
    apply filter_In. now rewrite search_test_spec.
Qed.

(** The prefix of a listing and what the cut leaves out. *)
Lemma cut_listing n (l : list ContextItem) :
  let L := sorted_by_updated_desc l in
  Permutation (firstn n L ++ skipn n L) l /\
  newest_first (firstn n L) /\
  none_newer (skipn n L) (firstn n L).
Proof.
  intros L. rewrite firstn_skipn.
  split; [apply sorted_by_updated_desc_perm|].
  pose proof (sorted_by_updated_desc_sorted l) as Hs. fold L in Hs.
  rewrite <- (firstn_skipn n L) in Hs.
  destruct (newest_first_app _ _ Hs) as (H1 & _ & H3). auto.
Qed.

End ListingFacts.

(** X7. With a limit that is not negative, [get_recent_contexts]
    returns the [limit] most recently updated records of the requested
    type (all of them when there are fewer), latest first: together with
    the records it leaves out it makes up the records of that type, and
    none it leaves out was updated after one it returns. *)
Theorem recent_returns_the_newest (limit : Z)
  (type_filter : option ContextType) (s : State) :
  0 <= limit ->
  let res := get_recent_contexts limit type_filter s in
  exists (sel : ContextItem -> bool) (rest : list ContextItem),
    (forall c, sel c = true <-> of_type type_filter c) /\
    Permutation (res ++ rest) (List.filter sel (dict_values (contexts s))) /\
    List.length res
    = Nat.min (Z.to_nat limit) (List.length (res ++ rest)) /\
    newest_first res /\
    none_newer rest res.
Proof.
  intros Hl res. unfold res, get_recent_contexts, slice_to.
  apply Z.leb_le in Hl. rewrite Hl.
  set (l := List.filter (fun c => negb (type_excluded type_filter c))
              (dict_values (contexts s))).
  exists (fun c => negb (type_excluded type_filter c)),
         (skipn (Z.to_nat limit) (sorted_by_updated_desc l)).
  destruct (cut_listing (Z.to_nat limit) l) as (H1 & H2 & H3).
  split; [intros c; apply of_type_spec|].
  split; [exact H1|].
  split; [rewrite firstn_skipn; apply length_firstn|].
  split; assumption.
Qed.

Lemma recent_returns_the_newest_witness :
  map title (get_recent_contexts 2 None Ex.s4) = ["Gamma"; "Beta"].
Proof.
  destruct (recent_returns_the_newest 2 None Ex.s4) as (_ & _ & _ & _ & _).
  - discriminate.
  - reflexivity.
Defined.

(** X8. With a negative limit [-k], [get_recent_contexts] does not
    fail: of the [n] records of the requested type it leaves out the [k]
    least recently updated and returns the other [n - k], latest first;
    when [n] is at most [k] it returns the empty list. *)
Theorem recent_with_negative_limit (limit : Z)
  (type_filter : option ContextType) (s : State) :
  limit < 0 ->
  let res := get_recent_contexts limit type_filter s in
  exists (sel : ContextItem -> bool) (rest : list ContextItem),
    (forall c, sel c = true <-> of_type type_filter c) /\
    Permutation (res ++ rest) (List.filter sel (dict_values (contexts s))) /\
    List.length rest
    = Nat.min (Z.to_nat (- limit)) (List.length (res ++ rest)) /\
    List.length res
    = (List.length (res ++ rest) - Z.to_nat (- limit))%nat /\
    newest_first res /\
    none_newer rest res.
Proof.
  intros Hl res. unfold res, get_recent_contexts, slice_to.
  assert (E : (0 <=? limit) = false) by (apply Z.leb_gt; lia). rewrite E.
  set (l := List.filter (fun c => negb (type_excluded type_filter c))
              (dict_values (contexts s))).
  set (L := sorted_by_updated_desc l).
  set (n := (List.length L - Z.to_nat (- limit))%nat).
  exists (fun c => negb (type_excluded type_filter c)), (skipn n L).
  destruct (cut_listing n l) as (H1 & H2 & H3). fold L in H1, H2, H3.
  split; [intros c; apply of_type_spec|].
  split; [exact H1|].
  split; [rewrite firstn_skipn, length_skipn; unfold n; lia|].
  split; [rewrite firstn_skipn, length_firstn; unfold n; lia|].
  split; assumption.
Qed.

Lemma recent_with_negative_limit_witness :
  map title (get_recent_contexts (-1) None Ex.s4) = ["Gamma"; "Beta"] /\
  get_recent_contexts (-5) None Ex.s4 = [].
Proof.
  destruct (recent_with_negative_limit (-1) None Ex.s4) as (_ & _ & _ & _ & _).
  - reflexivity.
  - split; reflexivity.
Defined.

(** X9. With a limit that is not negative, [search_context] answers
    that nothing was found exactly when the limit is zero or the store
    has no record of the type of the filter with the lower-cased query
    in its lower-cased title, content or tags. *)
Theorem search_context_no_match_iff (q : string)
  (type_filter : option ContextType) (limit : Z) (s : State) :
  0 <= limit ->
  (search_context q type_filter (Some limit) s = NoMatch q <->
   limit = 0 \/
   forall c, In c (dict_values (contexts s)) -> ~ is_match q type_filter c).
Proof.
  intros Hl. unfold search_context, slice_to. simpl with_default.
  pose proof Hl as Hl'. apply Z.leb_le in Hl'. rewrite Hl'.
  destruct (firstn (Z.to_nat limit) (search_contexts q type_filter s))
    as [|c r] eqn:E.
  - split; [intros _ | reflexivity].
    destruct (Z.to_nat limit) as [|n] eqn:En; [left; lia|].
    right. intros c Hc Hm.
    assert (Hin : In c (search_contexts q type_filter s))
      by (apply search_contexts_In; auto).
    destruct (search_contexts q type_filter s); [destruct Hin | discriminate E].
  - split; [discriminate|].
    intros [-> | Hnone]; [discriminate E|].
    exfalso.
    assert (Hin : In c (search_contexts q type_filter s)).
    { rewrite <- (firstn_skipn (Z.to_nat limit)), E. now left. }
    apply search_contexts_In in Hin. destruct Hin as [H1 H2].
    exact (Hnone c H1 H2).
Qed.

Lemma search_context_no_match_iff_witness :
  search_context "note" None (Some 0) Ex.s4 = NoMatch "note".
Proof.
  apply (search_context_no_match_iff "note" None 0 Ex.s4); [lia | now left].
Defined.

Lemma search_context_at_most_limit_witness :
  exists entries,
    search_context "note" None (Some 2) Ex.s4 = SearchResults "note" entries /\
    (List.length entries <= 2)%nat.
Proof.
  eexists. split; [reflexivity|].
  destruct (search_context_at_most_limit "note" None 2 Ex.s4 _ ltac:(lia) eq_refl)
    as (r & _ & _ & H).
  exact H.
Defined.

(* ------------------------------------------------------------------ *)
(** ** Search and the other operations *)

Section SearchMore.

Lemma contains_empty s : contains "" s = true.
Proof. destruct s; reflexivity. Qed.

Lemma sorted_length l : List.length (sorted_by_updated_desc l) = List.length l.
Proof. apply Permutation_length, sorted_by_updated_desc_perm. Qed.

Lemma append_empty_r s : (s ++ "")%string = s.
Proof. induction s as [|c s IH]; simpl; [|rewrite IH]; reflexivity. Qed.

Lemma occurs_lowered_same q s : lower q = lower s -> occurs_lowered q s.
Proof.
  intros H. exists ""%string, ""%string. rewrite H.
  simpl. now rewrite append_empty_r.
Qed.

Lemma In_values_get {V : Type} k (v : V) (d : dict V) :
  dict_get k d = Some v -> In v (dict_values d).
Proof.
  intros H. apply dict_get_Some_in in H.
  unfold dict_values. apply in_map_iff. now exists (k, v).
Qed.

(** The records of a mapping after [d[key] = x]. *)
Lemma In_dict_set {V : Type} key (x : V) (d : dict V) k v :
  dict_wf d -> In (k, v) (dict_set key x d) ->
  (k = key /\ v = x) \/ (k <> key /\ In (k, v) d).
Proof.
  unfold dict_wf. induction d as [|[k0 v0] d IH]; simpl; intros Hwf H.
  - destruct H as [[= <- <-] | []]. now left.
  - inversion Hwf as [|? ? Hni Hnd]; subst.
    destruct (String.eqb key k0) eqn:E.
    + apply String.eqb_eq in E. subst k0.
      destruct H as [[= <- <-] | H]; [now left|].
      right. split; [|now right].
      intros ->. apply Hni. apply in_map_iff. now exists (key, v).
    + apply String.eqb_neq in E.
      destruct H as [[= <- <-] | H].
      * right. split; [congruence | now left].
      * destruct (IH Hnd H) as [H1 | [H1 H2]]; [now left | right; auto].
Qed.

(** A record that is strictly the latest heads the sorted list. *)
Lemma sorted_head_latest l m :
  In m l ->
  (forall y, In y l ->
             y = m \/ datetime_ltb (updated_at y) (updated_at m) = true) ->
  exists tl, sorted_by_updated_desc l = m :: tl.
Proof.
  intros Hm Hmax.
  pose proof (sorted_by_updated_desc_perm l) as Hp.
  pose proof (sorted_by_updated_desc_sorted l) as Hs.
  destruct (sorted_by_updated_desc l) as [|h tl].
  - apply Permutation_nil in Hp. subst l. destruct Hm.
  - exists tl. f_equal.
    destruct (Hmax h) as [Hh | Hh];
      [apply (Permutation_in _ Hp); now left | assumption |].
    exfalso.
    assert (Hle : datetime_leb (updated_at m) (updated_at h) = true).
    { apply (Permutation_in _ (Permutation_sym Hp)) in Hm.
      destruct Hm as [<- | Hm]; [apply datetime_leb_refl|].
      inversion Hs as [|? ? _ Hall]; subst.
      rewrite Forall_forall in Hall. now apply Hall. }
    rewrite datetime_ltb_leb, Hle in Hh. discriminate.
Qed.

Lemma filter_all {A : Type} (l : list A) : List.filter (fun _ => true) l = l.
Proof. induction l as [|x l IH]; simpl; [|rewrite IH]; auto. Qed.

(** After [contexts[key] = x], with every other record strictly older
    than [x], the unfiltered listing starts with [x]. *)
Lemma touched_record_first key x (d : dict ContextItem) :
  dict_wf d ->
  (forall k c, k <> key -> dict_get k d = Some c ->
               datetime_ltb (updated_at c) (updated_at x) = true) ->
  exists tl, sorted_by_updated_desc (dict_values (dict_set key x d)) = x :: tl.
Proof.
  intros Hwf Hold. apply sorted_head_latest.
  - apply (In_values_get key). apply dict_get_set_same.
  - intros y Hy. unfold dict_values in Hy. apply in_map_iff in Hy.
    destruct Hy as ([k v] & <- & Hin). simpl.
    destruct (In_dict_set _ _ _ _ _ Hwf Hin) as [[_ ->] | [Hk Hd]]; [now left|].
    right. apply (Hold k v Hk). now apply dict_in_get.
Qed.

Lemma insert_desc_front x l :
  (forall y, In y l -> datetime_ltb (updated_at x) (updated_at y) = false) ->
  insert_desc x l = x :: l.
Proof.
  destruct l as [|y l]; simpl; intros H; [reflexivity|].
  now rewrite (H y (or_introl eq_refl)).
Qed.

(** Selecting from a sorted list and sorting the selection agree. *)
Lemma filter_insert_desc (p : ContextItem -> bool) x l :
  newest_first l ->
  List.filter p (insert_desc x l)
  = if p x then insert_desc x (List.filter p l) else List.filter p l.
Proof.
  unfold newest_first. induction l as [|y l IH]; intros Hs.
  - simpl. now destruct (p x).
  - inversion Hs as [|? ? Hs' Hall]; subst. simpl.
    destruct (datetime_ltb (updated_at x) (updated_at y)) eqn:E.
    + simpl. rewrite (IH Hs').
      destruct (p x), (p y); simpl; try reflexivity. now rewrite E.
    + simpl. destruct (p x); [|reflexivity].
      symmetry. apply insert_desc_front.
      intros z Hz. rewrite datetime_ltb_leb. apply negb_false_iff.
      rewrite datetime_ltb_leb in E. apply negb_false_iff in E.
      destruct (p y) eqn:Ey.
      * destruct Hz as [<- | Hz]; [exact E|].
        apply filter_In in Hz. destruct Hz as [Hz _].
        rewrite Forall_forall in Hall.
        eapply datetime_leb_trans; [apply (Hall z Hz) | exact E].
      * apply filter_In in Hz. destruct Hz as [Hz _].
        rewrite Forall_forall in Hall.
        eapply datetime_leb_trans; [apply (Hall z Hz) | exact E].
Qed.

Lemma filter_sorted (p : ContextItem -> bool) l :
  List.filter p (sorted_by_updated_desc l)
  = sorted_by_updated_desc (List.filter p l).
Proof.
  induction l as [|x l IH]; simpl; [reflexivity|].
  rewrite filter_insert_desc by apply sorted_by_updated_desc_sorted.
  rewrite IH. now destruct (p x).
Qed.

Lemma filter_filter {A : Type} (p q : A -> bool) (l : list A) :
  List.filter p (List.filter q l) = List.filter (fun a => q a && p a) l.
Proof.
  induction l as [|x l IH]; simpl; [reflexivity|].
  destruct (q x); simpl; [destruct (p x)|]; now rewrite IH.
Qed.

End SearchMore.

(** X10. The empty query matches every record: a search for it lists
    the same records, in the same order, as the listing of recent
    contexts with a limit of the size of the store. *)
Theorem search_empty_query_lists_all (type_filter : option ContextType)
  (s : State) :
  search_contexts "" type_filter s
  = get_recent_contexts (Z.of_nat (dict_len (contexts s))) type_filter s.
Proof.
  unfold search_contexts, get_recent_contexts, slice_to.
  assert (E : (0 <=? Z.of_nat (dict_len (contexts s))) = true)
    by (apply Z.leb_le; lia).
  rewrite E, Nat2Z.id.
  assert (Hf : List.filter
                 (fun c => negb (type_excluded type_filter c) &&
                           matches_query (lower "") c)
                 (dict_values (contexts s))
               = List.filter (fun c => negb (type_excluded type_filter c))
                   (dict_values (contexts s))).
  { apply filter_ext. intros c. unfold matches_query. simpl lower.
    rewrite contains_empty. simpl. apply andb_true_r. }
  rewrite Hf. symmetry. apply firstn_all2.
  rewrite sorted_length.
  etransitivity; [apply filter_length_le|].
  unfold dict_values, dict_len. now rewrite length_map.
Qed.

(** X11. A record that was just added is found by a search for its
    title, in whatever case the query is typed, with no type filter or
    with the filter of its type. *)
Theorem added_record_is_found (a : AddArgs) (now : datetime) (s : State)
  (q : string) (type_filter : option ContextType) :
  lower q = lower (a_title a) ->
  of_type type_filter (new_context_item a now) ->
  In (new_context_item a now)
     (search_contexts q type_filter (snd (add_context a now s))).
Proof.
  intros Hq Ht. apply search_contexts_In. split.
  - rewrite contexts_add.
    apply (In_values_get (id (new_context_item a now))), dict_get_set_same.
  - split; [exact Ht|]. left. now apply occurs_lowered_same.
Qed.

Lemma added_record_is_found_witness :
  In (new_context_item Ex.add_gamma Ex.t3)
     (search_contexts "GAMMA" (Some DECISION) Ex.s4).
Proof.
  apply (added_record_is_found Ex.add_gamma Ex.t3 Ex.s2 "GAMMA" (Some DECISION)).
  - reflexivity.
  - intros t [= <-]. reflexivity.
Defined.

(** X12. The record that a call touches heads the listing of recent
    contexts: when every other record of the store was last updated
    strictly before the clock reading of the call, the unfiltered
    listing with a positive limit starts with the record that
    [add_context] created, or that [update_context] updated. *)
Theorem touched_record_heads_recent (s : State) (now : datetime) (limit : Z) :
  dict_wf (contexts s) ->
  0 < limit ->
  (forall a,
      (forall k c, k <> id (new_context_item a now) ->
                   get_context k s = Some c ->
                   datetime_ltb (updated_at c) now = true) ->
      exists tl,
        get_recent_contexts limit None (snd (add_context a now s))
        = new_context_item a now :: tl) /\
  (forall cid p c,
      get_context cid s = Some c ->
      (forall k c', k <> cid -> get_context k s = Some c' ->
                    datetime_ltb (updated_at c') now = true) ->
      exists tl,
        get_recent_contexts limit None (snd (update_context cid p now s))
        = patched p now c :: tl).
Proof.
  intros Hwf Hl.
  assert (Hcut : forall x tl (l : list ContextItem),
             l = x :: tl -> exists tl', slice_to limit l = x :: tl').
  { intros x tl l ->. unfold slice_to.
    assert (E : (0 <=? limit) = true) by (apply Z.leb_le; lia). rewrite E.
    destruct (Z.to_nat limit) as [|n] eqn:En; [lia|]. simpl. eauto. }
  split.
  - intros a Hold. unfold get_recent_contexts. simpl type_excluded.
    rewrite filter_all, contexts_add.
    destruct (touched_record_first (id (new_context_item a now))
                (new_context_item a now) (contexts s) Hwf Hold) as [tl Htl].
    exact (Hcut _ _ _ Htl).
  - intros cid p c Hc Hold. unfold get_recent_contexts. simpl type_excluded.
    rewrite filter_all, (update_found _ _ _ _ _ Hc). simpl contexts.
    destruct (touched_record_first cid (patched p now c) (contexts s) Hwf Hold)
      as [tl Htl].
    exact (Hcut _ _ _ Htl).
Qed.

Lemma touched_record_heads_recent_witness :
  exists tl,
    get_recent_contexts 10 None
      (snd (update_context "conversation_20261103_170800" Ex2.retitle Ex.t4 Ex.s4))
    = patched Ex2.retitle Ex.t4 (new_context_item Ex.add_alpha Ex.t1) :: tl.
Proof.
  refine (proj2 (touched_record_heads_recent Ex.s4 Ex.t4 10 _ _)
            "conversation_20261103_170800" Ex2.retitle _ _ _).
  - repeat constructor; simpl; intuition discriminate.
  - reflexivity.
  - reflexivity.
  - intros k c' Hk Hc. unfold get_context in Hc.
    apply dict_get_Some_in in Hc. simpl in Hc.
    destruct Hc as [[= <- <-] | [[= <- <-] | [[= <- <-] | []]]];
      [now elim Hk | reflexivity | reflexivity].
Defined.

(** X13. A type filter selects from the unfiltered search: the search
    for a query within one type returns the records of that type among
    the results of the search without filter, in the same order. *)
Theorem search_filter_selects (q : string) (t : ContextType) (s : State) :
  search_contexts q (Some t) s
  = List.filter (fun c => ContextType_eqb (type c) t)
      (search_contexts q None s).
Proof.
  unfold search_contexts. rewrite filter_sorted, filter_filter.
  f_equal. apply filter_ext. intros c. simpl.
  rewrite negb_involutive.
  destruct (matches_query (lower q) c), (ContextType_eqb (type c) t); reflexivity.
Qed.

(* ------------------------------------------------------------------ *)
(** ** Statistics, details and previews *)

Section CountFacts.

Lemma sum_dict_set_incr k (d : dict nat) :
  list_sum (map snd (dict_set k (with_default (dict_get k d) 0%nat + 1)%nat d))
  = S (list_sum (map snd d)).
Proof.
  induction d as [|[k0 v0] d IH]; simpl; [reflexivity|].
  destruct (String.eqb k k0) eqn:E; simpl.
  - lia.
  - rewrite IH. lia.
Qed.

Lemma sum_count_values keys :
  list_sum (map snd (count_values keys)) = List.length keys.
Proof.
  unfold count_values.
  assert (H : forall acc : dict nat,
    list_sum (map snd
      (fold_left
         (fun counts k =>
            dict_set k (with_default (dict_get k counts) 0%nat + 1)%nat counts)
         keys acc))
    = (list_sum (map snd acc) + List.length keys)%nat).
  { induction keys as [|x keys IH]; intros acc; simpl; [lia|].
    rewrite IH, sum_dict_set_incr. lia. }
  now rewrite H.
Qed.

Lemma sum_sorted_items d :
  list_sum (map snd (sorted_items d)) = list_sum (map snd d).
Proof.
  apply Permutation_list_sum, Permutation_map, sorted_items_perm.
Qed.

End CountFacts.

(** X14. The counts of [get_context_stats] add up: on a store that is
    not empty, the counts per type sum to the total number of records,
    so do the counts per priority, and the list of the most recent
    records has three entries, or as many as there are records. *)
Theorem stats_counts_add_up (s : State) :
  contexts s <> [] ->
  exists st,
    get_context_stats s = Statistics st /\
    total st = dict_len (contexts s) /\
    list_sum (map snd (by_type st)) = total st /\
    list_sum (map snd (by_priority st)) = total st /\
    List.length (most_recent st) = Nat.min 3 (total st).
Proof.
  intros Hne. rewrite (get_context_stats_nonempty s Hne).
  eexists. split; [reflexivity|]. cbn [total by_type by_priority most_recent].
  split; [unfold dict_len, dict_values; now rewrite length_map|].
  split; [now rewrite sum_sorted_items, sum_count_values, length_map|].
  split; [now rewrite sum_sorted_items, sum_count_values, length_map|].
  now rewrite length_map, length_firstn, sorted_length.
Qed.

Lemma stats_counts_add_up_witness :
  exists st,
    get_context_stats Ex.s4 = Statistics st /\
    list_sum (map snd (by_type st)) = 3%nat.
Proof.
  destruct (stats_counts_add_up Ex.s4) as (st & H1 & H2 & H3 & _).
  - discriminate.
  - exists st. split; [exact H1|]. rewrite H3, H2. reflexivity.
Defined.

(** X15. What [get_context_details] shows after a successful
    [update_context]: each provided field has the provided value (an
    empty list of tags or connections empties the field), each omitted
    field its previous value, the metadata is the previous mapping with
    the provided one merged in, the update time is the clock reading,
    and the ID, the type and the creation time are those of before. *)
Theorem update_then_details (cid : string) (p : Patch) (now : datetime)
  (s : State) (c : ContextItem) :
  get_context cid s = Some c ->
  fst (update_context cid p now s)
  = Updated (with_default (p_title p) (title c)) /\
  get_context_details cid (snd (update_context cid p now s))
  = DetailsOf
      (mkDetails
         (with_default (p_title p) (title c))
         (id c)
         (ContextType_value (type c))
         (Priority_value (with_default (p_priority p) (priority c)))
         (strftime_utc (created_at c))
         (strftime_utc now)
         (with_default (p_tags p) (tags c))
         (with_default (p_connections p) (connections c))
         (with_default (p_content p) (content c))
         (match p_metadata p with
          | Some m => dict_update (metadata_of (default_metadata s) c) m
          | None => metadata_of (default_metadata s) c
          end)).
Proof.
  intros Hc. split.
  - now rewrite (update_found _ _ _ _ _ Hc).
  - unfold get_context_details.
    rewrite (get_context_update_same _ _ _ _ _ Hc).
    rewrite (update_found _ _ _ _ _ Hc). simpl.
    unfold metadata_of, patched_default. simpl.
    destruct (p_metadata p), (metadata c); reflexivity.
Qed.

Lemma update_then_details_witness :
  exists d,
    get_context_details "task_20261103_170930"
      (snd (update_context "task_20261103_170930" Ex2.retitle Ex.t4 Ex.s4))
    = DetailsOf d /\
    d_title d = "Beta 2" /\ d_tags d = [] /\ d_content d = "second note".
Proof.
  eexists. split.
  - apply (update_then_details "task_20261103_170930" Ex2.retitle Ex.t4 Ex.s4
             (new_context_item Ex.add_beta Ex.t2)).
    reflexivity.
  - repeat split.
Defined.

Section PreviewFacts.
Local Open Scope string_scope.

Lemma substring_0_all n : forall s,
  (String.length s <= n)%nat -> String.substring 0 n s = s.
Proof.
  induction n as [|n IH]; intros [|c s] H; simpl in *; try reflexivity; try lia.
  rewrite IH by lia. reflexivity.
Qed.

Lemma substring_0_prefix n : forall s,
  (n <= String.length s)%nat ->
  String.length (String.substring 0 n s) = n /\
  exists tl, s = String.substring 0 n s ++ tl.
Proof.
  induction n as [|n IH]; intros [|c s] H; simpl in *; try lia.
  - split; [reflexivity | now exists ""].
  - split; [reflexivity | now exists (String c s)].
  - destruct (IH s ltac:(lia)) as [H1 [tl H2]].
    split; [now rewrite H1 | exists tl; now rewrite <- H2].
Qed.

End PreviewFacts.

(** X16. The content line of a listing: a content of at most 100
    characters is shown whole; of a longer one, its first 100
    characters are shown, followed by three dots. *)
Theorem preview_cuts_at_100 (content : string) :
  ((String.length content <= 100)%nat -> preview content = content) /\
  ((100 < String.length content)%nat ->
   exists hd tl,
     content = (hd ++ tl)%string /\ String.length hd = 100%nat /\
     preview content = (hd ++ "...")%string).
Proof.
  unfold preview. split; intros H.
  - rewrite substring_0_all by assumption.
    apply Nat.ltb_ge in H. rewrite H. apply append_empty_r.
  - destruct (substring_0_prefix 100 content ltac:(lia)) as [H1 [tl H2]].
    exists (String.substring 0 100 content), tl.
    apply Nat.ltb_lt in H. rewrite H. auto.
Qed.

Lemma preview_cuts_at_100_witness :
  preview "second note" = "second note".
Proof.
  apply (proj1 (preview_cuts_at_100 "second note")). simpl. lia.
Defined.

(* ------------------------------------------------------------------ *)
(** ** Witnesses of the frame and growth lemmas *)

Lemma update_frame_witness :
  snapshot
    (default_metadata
       (snd (update_context "conversation_20261103_170800"
               (metadata_only Ex.kv) Ex.t4 Ex.s4)))
    (new_context_item Ex.add_gamma Ex.t3)
  = snapshot (default_metadata Ex.s4) (new_context_item Ex.add_gamma Ex.t3).
Proof.
  refine (proj2 (update_frame "conversation_20261103_170800"
                   (metadata_only Ex.kv) Ex.t4 Ex.s4
                   "decision_20261103_171045"
                   (new_context_item Ex.add_gamma Ex.t3) _ _) _).
  - discriminate.
  - reflexivity.
  - left. discriminate.
Defined.

Lemma records_are_never_removed_witness :
  get_context "conversation_20261103_170800" (run Ex2.run3 Ex.s1) <> None.
Proof.
  apply (proj1 (records_are_never_removed Ex2.run3 Ex.s1)). discriminate.
Defined.

(* ------------------------------------------------------------------ *)
(** ** The order of the count listings *)

Section NameOrder.

Lemma string_compare_le_trans a : forall b c,
  String.compare a b <> Gt -> String.compare b c <> Gt ->
  String.compare a c <> Gt.
Proof.
  induction a as [|x a IH]; intros [|y b] [|z c]; simpl; try congruence.
  unfold Ascii.compare.
  destruct (N.compare_spec (N_of_ascii x) (N_of_ascii y)),
           (N.compare_spec (N_of_ascii y) (N_of_ascii z)),
           (N.compare_spec (N_of_ascii x) (N_of_ascii z));
    try congruence; try lia; intros; eauto.
Qed.

Lemma string_leb_trans a b c :
  String.leb a b = true -> String.leb b c = true -> String.leb a c = true.
Proof.
  unfold String.leb. intros H1 H2.
  pose proof (string_compare_le_trans a b c) as H.
  destruct (String.compare a b); try discriminate;
  destruct (String.compare b c); try discriminate;
  destruct (String.compare a c); auto; exfalso; apply H; congruence.
Qed.

Lemma string_leb_neq_ltb a b :
  String.leb a b = true -> a <> b -> String.ltb a b = true.
Proof.
  unfold String.leb, String.ltb. intros H Hne.
  destruct (String.compare a b) eqn:E; try discriminate; [|reflexivity].
  apply String.compare_eq_iff in E. contradiction.
Qed.

Lemma insert_item_sorted x l :
  StronglySorted (fun a b => String.leb (fst a) (fst b) = true) l ->
  StronglySorted (fun a b => String.leb (fst a) (fst b) = true)
                 (insert_item x l).
Proof.
  induction l as [|y l IH]; simpl; intros Hs.
  - repeat constructor.
  - inversion Hs as [|? ? Hs' Hall]; subst.
    destruct (String.leb (fst x) (fst y)) eqn:E.
    + constructor; [assumption|]. constructor; [exact E|].
      eapply Forall_impl; [|exact Hall]. simpl. intros z Hz.
      eapply string_leb_trans; eassumption.
    + constructor; [auto|].
      apply (Permutation_Forall (Permutation_sym (insert_item_perm x l))).
      constructor; [|assumption].
      destruct (String.leb_total (fst x) (fst y)); congruence.
Qed.

Lemma sorted_items_by_name d :
  dict_wf d -> StronglySorted by_name (sorted_items d).
Proof.
  intros Hwf.
  assert (Hs : StronglySorted (fun a b => String.leb (fst a) (fst b) = true)
                 (sorted_items d)).
  { clear Hwf. induction d as [|x d IH]; simpl; [constructor|].
    now apply insert_item_sorted. }
  assert (Hnd : NoDup (map fst (sorted_items d))).
  { eapply Permutation_NoDup; [|exact Hwf].
    apply Permutation_map, Permutation_sym, sorted_items_perm. }
  induction Hs as [|x l Hs IH Hall]; [constructor|].
  simpl in Hnd. inversion Hnd as [|? ? Hni Hnd']; subst.
  constructor; [now apply IH|].
  rewrite Forall_forall in *. intros y Hy. unfold by_name.
  apply string_leb_neq_ltb; [now apply Hall|].
  intros Heq. apply Hni. rewrite Heq. now apply in_map.
Qed.

End NameOrder.

(** X17. The count listings of [get_context_stats] are in ascending
    order of the type names and of the priority names, each name once. *)
Theorem stats_listings_are_sorted (s : State) :
  contexts s <> [] ->
  exists st,
    get_context_stats s = Statistics st /\
    StronglySorted by_name (by_type st) /\
    StronglySorted by_name (by_priority st).
Proof.
  intros Hne. rewrite (get_context_stats_nonempty s Hne).
  eexists. split; [reflexivity|]. cbn [by_type by_priority].
  split; apply sorted_items_by_name, count_values_wf.
Qed.

Lemma stats_listings_are_sorted_witness :
  exists st,
    get_context_stats Ex.s4 = Statistics st /\
    map fst (by_priority st) = ["high"; "medium"].
Proof.
  destruct (stats_listings_are_sorted Ex.s4) as (st & H1 & _).
  - discriminate.
  - exists st. split; [exact H1|].
    injection H1 as <-. reflexivity.
Defined.

(* ------------------------------------------------------------------ *)
(** ** More on update and on the listing tool *)

(** X18. [update_context] never adds, removes or reorders IDs: found
    or not, it leaves the keys of the mapping as they are. *)
Theorem update_keeps_the_keys (cid : string) (p : Patch) (now : datetime)
  (s : State) :
  dict_keys (contexts (snd (update_context cid p now s)))
  = dict_keys (contexts s).
Proof.
  unfold update_context. destruct (get_context cid s) as [c|] eqn:E; simpl.
  - apply dict_keys_set_present. unfold get_context in E. congruence.
  - reflexivity.
Qed.

(** X19. With a limit that is not negative, [get_recent_context] answers
    that there are no contexts exactly when the limit is zero or the
    store holds no record of the requested type; otherwise it lists the
    summaries of the records that [get_recent_contexts] returns, under
    the name of the requested type. *)
Theorem recent_tool_reply (limit : Z) (type_filter : option ContextType)
  (s : State) :
  0 <= limit ->
  (get_recent_context (Some limit) type_filter s = NoContexts <->
   limit = 0 \/
   forall c, In c (dict_values (contexts s)) -> ~ of_type type_filter c) /\
  (get_recent_context (Some limit) type_filter s <> NoContexts ->
   get_recent_context (Some limit) type_filter s
   = RecentContexts (option_map ContextType_value type_filter)
       (map summarize (get_recent_contexts limit type_filter s))).
Proof.
  intros Hl. unfold get_recent_context. simpl with_default.
  destruct (get_recent_contexts limit type_filter s) as [|c r] eqn:E.
  - split; [|congruence]. split; [intros _ | reflexivity].
    unfold get_recent_contexts, slice_to in E.
    pose proof Hl as Hl'. apply Z.leb_le in Hl'. rewrite Hl' in E.
    destruct (Z.to_nat limit) as [|n] eqn:En; [left; lia|].
    right. intros c Hc Ht.
    assert (Hin : In c (sorted_by_updated_desc
                          (List.filter
                             (fun c => negb (type_excluded type_filter c))
                             (dict_values (contexts s))))).
    { apply (Permutation_in _ (Permutation_sym (sorted_by_updated_desc_perm _))).
      apply filter_In. split; [assumption | now apply of_type_spec]. }
    destruct (sorted_by_updated_desc _); [destruct Hin | discriminate E].
  - split; [|reflexivity]. split; [discriminate|].
    intros [-> | Hnone].
    + unfold get_recent_contexts, slice_to in E. simpl in E. discriminate E.
    + exfalso.
      assert (Hin : In c (get_recent_contexts limit type_filter s))
        by (rewrite E; now left).
      unfold get_recent_contexts, slice_to in Hin.
      pose proof Hl as Hl'. apply Z.leb_le in Hl'. rewrite Hl' in Hin.
      assert (Hin' : In c (sorted_by_updated_desc
                             (List.filter
                                (fun c => negb (type_excluded type_filter c))
                                (dict_values (contexts s)))))
        by (rewrite <- (firstn_skipn (Z.to_nat limit)); apply in_or_app; now left).
      clear Hin. rename Hin' into Hin.
      apply (Permutation_in _ (sorted_by_updated_desc_perm _)) in Hin.
      apply filter_In in Hin. destruct Hin as [H1 H2].
      apply of_type_spec in H2. exact (Hnone c H1 H2).
Qed.

Lemma recent_tool_reply_witness :
  get_recent_context (Some 5) (Some INSIGHT) Ex.s4 = NoContexts.
Proof.
  apply (proj1 (recent_tool_reply 5 (Some INSIGHT) Ex.s4 ltac:(lia))).
  right. intros c Hc Ht. specialize (Ht INSIGHT eq_refl).
  simpl in Hc.
  destruct Hc as [<- | [<- | [<- | []]]]; discriminate Ht.
Defined.

(* ------------------------------------------------------------------ *)
(** ** The tools as the program calls them *)

Section DispatchFacts.

Lemma own_metadata_startup f : own_metadata (startup f).
Proof.
  split; [apply init_default | apply init_all_own].
Qed.

Lemma own_metadata_step s o : own_metadata s -> own_metadata (tool_step s o).
Proof.
  intros [Hd Hown]. destruct o as [a now | cid p now]; cbn [tool_step].
  - unfold tool_add_context. split; [exact Hd|].
    rewrite contexts_add. apply Forall_dict_set; [|exact Hown].
    simpl. eauto.
  - unfold update_context. destruct (get_context cid s) as [c|] eqn:E;
      [|split; assumption].
    assert (Hc : exists m, metadata c = Own m).
    { rewrite Forall_forall in Hown. apply Hown.
      apply (In_values_get cid). exact E. }
    destruct Hc as [m Hm]. split; simpl.
    + unfold patched_default. rewrite Hm. now destruct (p_metadata p).
    + apply Forall_dict_set; [|exact Hown].
      simpl. rewrite Hm. destruct (p_metadata p); eauto.
Qed.

Lemma own_metadata_run ops : forall s,
  own_metadata s -> own_metadata (tool_run ops s).
Proof.
  induction ops as [|o ops IH]; intros s Hs; simpl; [assumption|].
  apply IH. now apply own_metadata_step.
Qed.

(** A run of the program is a run of the functions, with the same
    clock readings. *)
Lemma tool_run_as_run ops : forall s,
  exists ops', tool_run ops s = run ops' s /\
               map op_time ops' = map op_time ops.
Proof.
  induction ops as [|o ops IH]; intros s.
  - exists []. split; reflexivity.
  - destruct o as [a now | cid p now]; simpl.
    + destruct (IH (snd (tool_add_context a now s))) as (ops' & H1 & H2).
      exists (OpAdd (validated s a) now :: ops'). simpl.
      split; [exact H1 | now rewrite H2].
    + destruct (IH (snd (update_context cid p now s))) as (ops' & H1 & H2).
      exists (OpUpdate cid p now :: ops'). simpl.
      split; [exact H1 | now rewrite H2].
Qed.

End DispatchFacts.

(** C1. In every state that the program reaches, from a start over any
    file and through any calls of the tools, [add_context] followed by
    [get_context_details] on the ID it returns shows the title, the
    content, the type, the priority, the tags, the connections and the
    metadata of the call, with [conversation], [medium], the empty
    sequence and the empty mapping for what the call omits. *)
Theorem add_then_details_shows_inputs (f : File) (ops : list Op)
  (a : AddArgs) (now : datetime) :
  let s := tool_run ops (startup f) in
  exists cid,
    fst (tool_add_context a now s) = Added (a_title a) cid /\
    get_context_details cid (snd (tool_add_context a now s)) =
    DetailsOf
      (mkDetails (a_title a) cid
         (ContextType_value (with_default (a_context_type a) CONVERSATION))
         (Priority_value (with_default (a_priority a) MEDIUM))
         (strftime_utc now) (strftime_utc now)
         (with_default (a_tags a) [])
         (with_default (a_connections a) [])
         (a_content a)
         (with_default (a_metadata a) [])).
Proof.
  intros s.
  destruct (own_metadata_run ops (startup f) (own_metadata_startup f))
    as [Hd _]. fold s in Hd.
  unfold tool_add_context.
  exists (id (new_context_item (validated s a) now)).
  split; [reflexivity|].
  unfold get_context_details. rewrite get_context_add. simpl.
  unfold metadata_of. simpl. now rewrite Hd.
Qed.

(** C10. In every state that the program reaches, an update of the
    record with one ID leaves every record with another ID as it is, by
    value and with its metadata, however the records were created: with
    tags, connections and metadata given, or omitted. *)
Theorem update_leaves_other_records (f : File) (ops : list Op)
  (cid : string) (p : Patch) (now : datetime) (k : string) (c : ContextItem) :
  let s := tool_run ops (startup f) in
  k <> cid ->
  get_context k s = Some c ->
  let s' := snd (update_context cid p now s) in
  get_context k s' = Some c /\
  snapshot (default_metadata s') c = snapshot (default_metadata s) c.
Proof.
  intros s Hk Hc s'. split.
  - unfold s'. now rewrite get_context_update_other.
  - destruct (own_metadata_run ops (startup f) (own_metadata_startup f))
      as [_ Hown]. fold s in Hown.
    rewrite Forall_forall in Hown.
    destruct (Hown c (In_values_get k c _ Hc)) as [m Hm].
    now rewrite !(snapshot_own _ _ _ Hm).
Qed.

Lemma update_leaves_other_records_witness :
  exists d,
    get_context_details "task_20261103_170930"
      (snd (update_context "conversation_20261103_170800"
              (metadata_only Ex.kv) Ex.t4 Ex2.served))
    = DetailsOf d /\ d_metadata d = [].
Proof.
  destruct (update_leaves_other_records NoFile Ex2.run3
              "conversation_20261103_170800" (metadata_only Ex.kv) Ex.t4
              "task_20261103_170930"
              (new_context_item (validated Ex.s0 Ex.add_beta) Ex.t2))
    as [H1 H2].
  - discriminate.
  - reflexivity.
  - unfold get_context_details.
    fold Ex2.served in H1. rewrite H1.
    eexists. split; reflexivity.
Defined.

(* ------------------------------------------------------------------ *)
(** ** How the constructor ends *)

Section ConstructFacts.

(** When the constructor returns, it leaves the state of
    [ContextManager_init]. *)
Lemma construct_returns env dflt f s :
  construct env dflt f = Constructed s -> s = ContextManager_init dflt f.
Proof.
  unfold construct, handle_error, ContextManager_init, load_contexts.
  destruct (exists_raises env); [discriminate|].
  destruct f as [| |j]; simpl.
  - now intros [= <-].
  - destruct (print_returns env); [now intros [= <-] | discriminate].
  - destruct (as_obj j) as [o|] eqn:Eo; simpl.
    + destruct (existsb malformed (dict_values o)) eqn:Em.
      * destruct (print_returns env); [|discriminate]. intros [= <-].
        apply existsb_exists in Em. destruct Em as (j0 & Hin & Hj0).
        rewrite load_items_rejects; [reflexivity|].
        unfold dict_values in Hin. apply in_map_iff in Hin.
        destruct Hin as (kv & <- & Hkv).
        apply Exists_exists. exists kv. split; [assumption|].
        now apply malformed_from_dict.
      * destruct (load_items o); [now intros [= <-] | discriminate].
    + destruct (print_returns env); [now intros [= <-] | discriminate].
Qed.

(** The constructor raises exactly when [exists()] raises, or loading
    raises and the message cannot be printed. *)
Lemma construct_raises_iff env dflt f :
  construct env dflt f = Raised <->
  exists_raises env = true \/
  (print_returns env = false /\
   (f = Unparseable \/
    exists j, f = JsonFile j /\
              match as_obj j with
              | Some o => existsb malformed (dict_values o) = true
              | None => True
              end)).
Proof.
  unfold construct, handle_error.
  destruct (exists_raises env); [split; [now left | reflexivity]|].
  destruct f as [| |j].
  - split; [discriminate|].
    intros [H | [_ [H | (j & H & _)]]]; discriminate.
  - destruct (print_returns env).
    + split; [discriminate | intros [H | [H _]]; discriminate].
    + split; [intros _; right; split; [reflexivity | now left] | reflexivity].
  - destruct (as_obj j) as [o|] eqn:Eo.
    + destruct (existsb malformed (dict_values o)) eqn:Em.
      * destruct (print_returns env).
        -- split; [discriminate | intros [H | [H _]]; discriminate].
        -- split; [|reflexivity]. intros _. right. split; [reflexivity|].
           right. exists j. split; [reflexivity|]. now rewrite Eo.
      * split.
        -- destruct (load_items o); discriminate.
        -- intros [H | [_ [H | (j' & [= <-] & H)]]]; try discriminate.
           rewrite Eo in H. congruence.
    + destruct (print_returns env).
      * split; [discriminate | intros [H | [H _]]; discriminate].
      * split; [|reflexivity]. intros _. right. split; [reflexivity|].
        right. exists j. split; [reflexivity|]. now rewrite Eo.
Qed.

(** Over a file that the program wrote, the constructor returns with
    what was saved whenever the file can be examined: nothing is
    printed. *)
Lemma construct_of_saved env dflt s :
  store_ok s -> exists_raises env = false ->
  construct env dflt (context_file (save_contexts s))
  = Constructed (ContextManager_init dflt (context_file (save_contexts s))).
Proof.
  intros Hok He. unfold construct. rewrite He.
  cbn [save_contexts context_file as_obj].
  set (o := map (fun kc => (fst kc, to_dict (default_metadata s) (snd kc)))
              (contexts s)).
  assert (Hm : existsb malformed (dict_values o) = false).
  { destruct (existsb malformed (dict_values o)) eqn:E; [|reflexivity].
    apply existsb_exists in E. destruct E as (j & Hin & Hj).
    unfold dict_values, o in Hin. rewrite map_map in Hin.
    apply in_map_iff in Hin. destruct Hin as (kc & <- & _).
    cbn [snd] in Hj. now rewrite to_dict_not_malformed in Hj. }
  rewrite Hm.
  pose proof (init_of_saved s dflt Hok) as Hinit.
  unfold ContextManager_init, load_contexts in *.
  cbn [save_contexts context_file as_obj] in *. fold o in Hinit |- *.
  destruct Hok as [Hwf Hitems].
  unfold load_items, o. rewrite load_items_acc by assumption.
  reflexivity.
Qed.

End ConstructFacts.

(** C8. The constructor can fail. Over a file one of whose entries has
    a key too many, the constructor of the dataclass raises and the
    handler prints the message, which names the key: where the standard
    output cannot encode it, [print] raises in the handler, before
    [self.contexts = {}], and the exception leaves the constructor.
    Where the message can be printed, the store is built with the
    empty mapping. The test [exists()], before the [try], makes the
    constructor fail as well when it raises. *)
Theorem construction_can_raise :
  construct Ex2.strict_console [] Ex2.extra_key_file = Raised /\
  construct Ex2.plain_console [] Ex2.extra_key_file
  = Constructed (mkState [] [] Ex2.extra_key_file) /\
  (forall f, construct Ex2.no_access [] f = Raised).
Proof. repeat split. Qed.
